(** * Browser verification scripts of the chat application

    The repository holds two Playwright scripts,
    [jules-scratch/verification/verify_context_tracker.py] and
    [jules-scratch/verification/verify_document_tagging.py].  Both are
    straight-line sequences of blocking calls to the browser driver.

    The scripts are embedded as programs of a state-and-exception monad over
    a [world]: the files on disk, the standard error stream, the browser
    processes and pages that are open, and the list of commands sent to the
    driver.  Everything the scripts talk to (the server behind the URL, the
    application's event handlers, the selector engine, the renderer) is an
    [env], over which every theorem quantifies.

    Time is not modelled: the page an event handler of the application
    returns is the page the application settles in within the driver's
    waits, and a wait that would time out is the exception it ends with. *)

From Stdlib Require Import ZArith.
From stdpp Require Import base strings list gmap.

Open Scope string_scope.
Open Scope list_scope.

(** ** The page as the scripts observe it *)

Record element := Element {
  el_test_id : option string;   (* the data-testid attribute *)
  el_text    : string;          (* the visible text *)
  el_value   : string;          (* the value of an input *)
  el_visible : bool;
  el_enabled : bool;
  el_editable : bool;           (* an input that is not read-only *)
  el_stable : bool;             (* not moving *)
  el_receives_events : bool     (* not covered by another element *)
}.

Abbreviation dom_tree := (list element).
Definition png := list Byte.byte.

(** A selector is what [page.get_by_test_id] and [page.get_by_text] build.
    A locator is lazy: it remembers the page and the selector and is resolved
    against the page each time an action or an assertion uses it. *)
Inductive selector :=
| ByTestId (test_id : string)
| ByText (text : string).

Definition Page := nat.
Definition Browser := nat.
Inductive Playwright := PlaywrightDriver.

Record Locator := { loc_page : Page; loc_selector : selector }.

(** ** Exceptions *)

Inductive exn :=
| LaunchError
| TargetClosedError
| NavigationError (url : string)
| ElementResolutionError (sel : selector)
| StrictModeViolation (sel : selector)
| VisibilityAssertionError (sel : selector)
| ValueAssertionError (sel : selector) (expected : string) (actual : option string)
| ScreenshotError (path : string).

(** ** Commands sent to the browser driver *)

Inductive call :=
| Launch (headless : bool)
| NewPage
| Goto (url : string)
| Fill (sel : selector) (value : string)
| ExpectVisible (sel : selector)
| Click (sel : selector)
| ExpectValue (sel : selector) (expected : string)
| Screenshot (path : string) (full_page : bool)
| Close.

(** ** The collaborators: server, application, selector engine, renderer *)

Record env := Env {
  (* does a launch with this headless flag succeed *)
  can_launch   : bool -> bool;
  (* the page a URL loads; None when the navigation fails *)
  serve        : string -> option dom_tree;
  (* the selector engine on texts: the wanted text, the text of an element *)
  text_matches : string -> string -> bool;
  (* the page after the application handled an input event on element i *)
  on_input     : nat -> dom_tree -> dom_tree;
  (* the page after the application handled a click on element i *)
  on_click     : nat -> dom_tree -> dom_tree;
  (* the picture of a page, of the full page or of the viewport *)
  render       : bool -> dom_tree -> png;
  (* can a file be written at this path *)
  can_write    : string -> bool
}.

(** ** The world a script runs in *)

Record world := World {
  argv     : list string;
  environ  : gmap string string;
  fs       : gmap string png;
  stderr   : list string;
  driver   : bool;
  browsers : gset Browser;
  pages    : gmap Page (Browser * dom_tree);
  calls    : list (call * option exn)   (* each command with how it ended, oldest first *)
}.

Inductive result (A : Type) :=
| Ok (a : A)
| Raise (e : exn).
Arguments Ok {A} a.
Arguments Raise {A} e.

Definition M (A : Type) := world -> result A * world.

Definition ret {A} (a : A) : M A := fun w => (Ok a, w).
Definition raise {A} (e : exn) : M A := fun w => (Raise e, w).
Definition bind {A B} (m : M A) (k : A -> M B) : M B :=
  fun w => match m w with
           | (Ok a, w') => k a w'
           | (Raise e, w') => (Raise e, w')
           end.

Declare Scope script_scope.
Delimit Scope script_scope with script.
Notation "x <- m ;; k" := (bind m (fun x => k))
  (at level 100, m at next level, right associativity) : script_scope.
Notation "m ;;; k" := (bind m (fun _ => k))
  (at level 100, right associativity) : script_scope.
Open Scope script_scope.

(** [try: body finally: fin]: [fin] runs on both exits of [body]; an exception
    of [body] is raised again after [fin], unless [fin] raises itself. *)
Definition try_finally {A} (body : M A) (fin : M unit) : M A :=
  fun w => match body w with
           | (Ok a, w') =>
               match fin w' with
               | (Ok _, w'') => (Ok a, w'')
               | (Raise e, w'') => (Raise e, w'')
               end
           | (Raise e, w') =>
               match fin w' with
               | (Ok _, w'') => (Raise e, w'')
               | (Raise e', w'') => (Raise e', w'')
               end
           end.

(** The status of the Python process: an exception that reaches the top level
    ends it with status 1. *)
Definition exit_status {A} (r : result A) : Z :=
  match r with
  | Ok _ => 0
  | Raise _ => 1
  end.

(** ** State accessors *)

Definition outcome {A} (r : result A) : option exn :=
  match r with
  | Ok _ => None
  | Raise e => Some e
  end.

(** A command to the driver: when [body] returns, the command is recorded with
    the exception it raised, if any. *)
Definition driver_call {A} (c : call) (body : M A) : M A :=
  fun w => match body w with
           | (r, w') =>
               (r, World (argv w') (environ w') (fs w') (stderr w') (driver w')
                         (browsers w') (pages w') (calls w' ++ [(c, outcome r)]))
           end.

(** [print(s, file=sys.stderr)] *)
Definition print (s : string) : M unit :=
  fun w => (Ok tt,
            World (argv w) (environ w) (fs w) (stderr w ++ [s]) (driver w)
                  (browsers w) (pages w) (calls w)).

(** [sys.argv] and [os.environ.get(key)]: how a Python program reads its
    configuration.  Neither script calls them. *)
Definition sys_argv : M (list string) :=
  fun w => (Ok (argv w), w).

Definition os_environ_get (key : string) : M (option string) :=
  fun w => (Ok (environ w !! key), w).

Definition get_page (page : Page) : M (Browser * dom_tree) :=
  fun w => match pages w !! page with
           | Some bd => (Ok bd, w)
           | None => (Raise TargetClosedError, w)
           end.

Definition set_dom (page : Page) (b : Browser) (d : dom_tree) : M unit :=
  fun w => (Ok tt,
            World (argv w) (environ w) (fs w) (stderr w) (driver w)
                  (browsers w) (<[page := (b, d)]> (pages w)) (calls w)).

Definition write_file (path : string) (data : png) : M unit :=
  fun w => (Ok tt,
            World (argv w) (environ w) (<[path := data]> (fs w)) (stderr w)
                  (driver w) (browsers w) (pages w) (calls w)).

(** ** The driver *)

(** The checks the driver makes on an element before it acts on it: a fill
    needs it visible, enabled and editable; a click needs it visible, stable,
    receiving events and enabled. *)
Inductive action :=
| Filling
| Clicking.

Definition actionable (a : action) (e : element) : bool :=
  match a with
  | Filling => el_visible e && el_enabled e && el_editable e
  | Clicking =>
      el_visible e && el_stable e && el_receives_events e && el_enabled e
  end.

Definition set_value (i : nat) (value : string) (d : dom_tree) : dom_tree :=
  alter (fun e => Element (el_test_id e) (el_text e) value
                          (el_visible e) (el_enabled e) (el_editable e)
                          (el_stable e) (el_receives_events e)) i d.

Section Driver.
Context (E : env).

Definition matches (sel : selector) (e : element) : bool :=
  match sel with
  | ByTestId test_id => bool_decide (el_test_id e = Some test_id)
  | ByText text => text_matches E text (el_text e)
  end.

(** The elements a selector matches, with their positions in the page. *)
Definition resolve (sel : selector) (d : dom_tree) : list (nat * element) :=
  List.filter (fun ie => matches sel (snd ie)) (imap pair d).

(** An action needs its locator to resolve to one element that passes the
    driver's checks for the action; the driver waits for that and gives up at
    its timeout. *)
Definition action_target (a : action) (sel : selector) (d : dom_tree)
  : result nat :=
  match resolve sel d with
  | [] => Raise (ElementResolutionError sel)
  | [(i, e)] => if actionable a e then Ok i
                else Raise (ElementResolutionError sel)
  | _ :: _ :: _ => Raise (StrictModeViolation sel)
  end.

Definition lift {A} (r : result A) : M A := fun w => (r, w).

(** [sync_playwright().__enter__] and [__exit__]: stopping the driver ends
    every browser it launched, and their pages. *)
Definition start_driver : M Playwright :=
  fun w => (Ok PlaywrightDriver,
            World (argv w) (environ w) (fs w) (stderr w) true
                  (browsers w) (pages w) (calls w)).

Definition stop_driver : M unit :=
  fun w => (Ok tt,
            World (argv w) (environ w) (fs w) (stderr w) false
                  ∅ ∅ (calls w)).

(** [with sync_playwright() as p: body] *)
Definition with_sync_playwright {A} (body : Playwright -> M A) : M A :=
  p <- start_driver ;;
  try_finally (body p) stop_driver.

(** [p.chromium.launch(headless=...)]; headless is the default. *)
Definition chromium_launch (p : Playwright) (headless : option bool) : M Browser :=
  let h := default true headless in
  driver_call (Launch h) (
  if can_launch E h then
    fun w =>
      let b := fresh (browsers w) in
      (Ok b, World (argv w) (environ w) (fs w) (stderr w) (driver w)
                   ({[b]} ∪ browsers w) (pages w) (calls w))
  else raise LaunchError).

(** [browser.new_page()]: a blank page. *)
Definition new_page (browser : Browser) : M Page :=
  driver_call NewPage (
  fun w =>
    if bool_decide (browser ∈ browsers w) then
      let pg := fresh (dom (pages w)) in
      (Ok pg, World (argv w) (environ w) (fs w) (stderr w) (driver w)
                    (browsers w) (<[pg := (browser, [])]> (pages w)) (calls w))
    else (Raise TargetClosedError, w)).

(** [browser.close()]: ends the browser and its pages; closing a browser
    that is closed already does nothing. *)
Definition browser_close (browser : Browser) : M unit :=
  driver_call Close (
  fun w =>
    (Ok tt, World (argv w) (environ w) (fs w) (stderr w) (driver w)
                  (browsers w ∖ {[browser]})
                  (filter (fun kv => fst (snd kv) ≠ browser) (pages w))
                  (calls w))).

(** [page.goto(url)] *)
Definition page_goto (page : Page) (url : string) : M unit :=
  driver_call (Goto url) (
  bd <- get_page page ;;
  match serve E url with
  | Some d => set_dom page (fst bd) d
  | None => raise (NavigationError url)
  end).

Definition get_by_test_id (page : Page) (test_id : string) : Locator :=
  {| loc_page := page; loc_selector := ByTestId test_id |}.

Definition get_by_text (page : Page) (text : string) : Locator :=
  {| loc_page := page; loc_selector := ByText text |}.

(** [locator.fill(value)]: the element's value becomes [value], whatever it
    was, and the application sees the input event. *)
Definition locator_fill (l : Locator) (value : string) : M unit :=
  driver_call (Fill (loc_selector l) value) (
  bd <- get_page (loc_page l) ;;
  i <- lift (action_target Filling (loc_selector l) (snd bd)) ;;
  set_dom (loc_page l) (fst bd) (on_input E i (set_value i value (snd bd)))).

(** [locator.click()] *)
Definition locator_click (l : Locator) : M unit :=
  driver_call (Click (loc_selector l)) (
  bd <- get_page (loc_page l) ;;
  i <- lift (action_target Clicking (loc_selector l) (snd bd)) ;;
  set_dom (loc_page l) (fst bd) (on_click E i (snd bd))).

(** [expect(locator).to_be_visible()]: the page is the one the application
    settles in within the assertion's wait. *)
Definition expect_to_be_visible (l : Locator) : M unit :=
  driver_call (ExpectVisible (loc_selector l)) (
  bd <- get_page (loc_page l) ;;
  match resolve (loc_selector l) (snd bd) with
  | [] => raise (VisibilityAssertionError (loc_selector l))
  | [(_, e)] => if el_visible e then ret tt
                else raise (VisibilityAssertionError (loc_selector l))
  | _ :: _ :: _ => raise (StrictModeViolation (loc_selector l))
  end).

(** [expect(locator).to_have_value(expected)]: the whole value is compared,
    character by character. *)
Definition expect_to_have_value (l : Locator) (expected : string) : M unit :=
  driver_call (ExpectValue (loc_selector l) expected) (
  bd <- get_page (loc_page l) ;;
  match resolve (loc_selector l) (snd bd) with
  | [] => raise (ValueAssertionError (loc_selector l) expected None)
  | [(_, e)] => if bool_decide (el_value e = expected) then ret tt
                else raise (ValueAssertionError (loc_selector l) expected
                                                (Some (el_value e)))
  | _ :: _ :: _ => raise (StrictModeViolation (loc_selector l))
  end).

(** [page.screenshot(path=..., full_page=...)]: without [full_page] the
    picture is of the viewport. *)
Definition page_screenshot (page : Page) (path : string)
           (full_page : option bool) : M unit :=
  let full := default false full_page in
  driver_call (Screenshot path full) (
  bd <- get_page page ;;
  if can_write E path then write_file path (render E full (snd bd))
  else raise (ScreenshotError path)).

(** ** verify_document_tagging.py *)

(** The body of [run_verification] as a function of the value its local
    variable [document_to_select] holds. *)
Definition run_verification_with (document_to_select : string) (page : Page)
  : M unit :=
  print "Starting verification script..." ;;;
  (* 1. Arrange: Go to the chat page. *)
  print "Navigating to http://localhost:3000..." ;;;
  page_goto page "http://localhost:3000" ;;;
  print "Navigation complete." ;;;
  (* 2. Act: Type "@" in the chat input. *)
  print "Filling input with '@'..." ;;;
  let chat_input := get_by_test_id page "multimodal-input" in
  locator_fill chat_input "@" ;;;
  print "Fill complete." ;;;
  (* 3. Assert: The document tagging component should be visible. *)
  print "Waiting for document tagging component..." ;;;
  let document_tagging := get_by_test_id page "document-tagging" in
  expect_to_be_visible document_tagging ;;;
  print "Document tagging component is visible." ;;;
  (* 4. Act: Click on a document in the list. *)
  print ("Clicking on '" +:+ document_to_select +:+ "'...") ;;;
  locator_click (get_by_text page document_to_select) ;;;
  print "Click complete." ;;;
  (* 5. Assert: The input should now contain the tagged document. *)
  print "Checking input value..." ;;;
  expect_to_have_value chat_input (" @" +:+ document_to_select +:+ " ") ;;;
  print "Input value is correct." ;;;
  (* 6. Screenshot: Capture the final result. *)
  let screenshot_path := "jules-scratch/verification/verification.png" in
  print ("Taking screenshot at " +:+ screenshot_path +:+ "...") ;;;
  page_screenshot page screenshot_path None ;;;
  print "Screenshot taken." ;;;
  print "Verification script finished successfully.".

Definition run_verification (page : Page) : M unit :=
  let document_to_select := "Monet" in
  run_verification_with document_to_select page.

Definition verify_document_tagging : M unit :=
  with_sync_playwright (fun p =>
    browser <- chromium_launch p (Some true) ;;
    page <- new_page browser ;;
    try_finally (run_verification page) (browser_close browser)).

(** ** verify_context_tracker.py *)

Definition verify_context_tracker : M unit :=
  with_sync_playwright (fun p =>
    browser <- chromium_launch p None ;;
    page <- new_page browser ;;
    page_goto page "http://localhost:3000" ;;;
    page_screenshot page "jules-scratch/verification/context_tracker.png" None ;;;
    browser_close browser).

End Driver.

(** ** A stub application

    A page with the chat input; typing "@" shows the document list with one
    entry; clicking the entry writes [tagged] into the input and hides the
    list.  The selector engine of the stub compares texts for equality. *)

Definition stub_input (value : string) : element :=
  Element (Some "multimodal-input") "" value true true true true true.

Definition stub_container : element :=
  Element (Some "document-tagging") "" "" true true false true true.

Definition stub_entry (entry : string) : element :=
  Element None entry "" true true false true true.

Definition stub_list (entry : string) : list element :=
  [ stub_container; stub_entry entry ].

Definition stub_on_input (entry : string) (i : nat) (d : dom_tree) : dom_tree :=
  match d with
  | [inp] => if bool_decide (el_value inp = "@") then inp :: stub_list entry else d
  | _ => d
  end.

Definition stub_on_click (entry tagged : string) (i : nat) (d : dom_tree) : dom_tree :=
  match d !! i with
  | Some e => if bool_decide (el_text e = entry) then [stub_input tagged] else d
  | None => d
  end.

Definition stub_render (full_page : bool) (d : dom_tree) : png :=
  if full_page then [Byte.x50; Byte.x4e; Byte.x47; Byte.x46]
  else [Byte.x50; Byte.x4e; Byte.x47; Byte.x56].

Definition stub_env (entry tagged : string) : env :=
  {| can_launch := fun _ => true;
     serve := fun url => if bool_decide (url = "http://localhost:3000")
                         then Some [stub_input ""] else None;
     text_matches := String.eqb;
     on_input := stub_on_input entry;
     on_click := stub_on_click entry tagged;
     render := stub_render;
     can_write := fun _ => true |}.

(** The application as the tagging script expects it. *)
Definition chat_app : env := stub_env "Monet" " @Monet ".

(** An application that forgets the trailing space. *)
Definition chat_app_no_trailing_space : env := stub_env "Monet" " @Monet".

(** An application whose document list never shows. *)
Definition chat_app_no_list : env :=
  {| can_launch := fun _ => true;
     serve := fun url => if bool_decide (url = "http://localhost:3000")
                         then Some [stub_input ""] else None;
     text_matches := String.eqb;
     on_input := fun _ d => d;
     on_click := fun _ d => d;
     render := stub_render;
     can_write := fun _ => true |}.

(** A page without the chat input. *)
Definition chat_app_no_input : env :=
  {| can_launch := fun _ => true;
     serve := fun url => if bool_decide (url = "http://localhost:3000")
                         then Some [] else None;
     text_matches := String.eqb;
     on_input := fun _ d => d;
     on_click := fun _ d => d;
     render := stub_render;
     can_write := fun _ => true |}.

(** No server behind the URL. *)
Definition no_server : env :=
  {| can_launch := fun _ => true;
     serve := fun _ => None;
     text_matches := String.eqb;
     on_input := fun _ d => d;
     on_click := fun _ d => d;
     render := stub_render;
     can_write := fun _ => true |}.

(** A fresh process on an empty disk. *)
Definition fresh_world : world :=
  World [] ∅ ∅ [] false ∅ ∅ [].

(** ** What the claims speak of *)

Abbreviation history := (list (call * option exn)).

(** The steps of [run_verification], in the order of the source, for the
    document name [d]. *)
Definition tagging_steps (d : string) : list call :=
  [ Goto "http://localhost:3000";
    Fill (ByTestId "multimodal-input") "@";
    ExpectVisible (ByTestId "document-tagging");
    Click (ByText d);
    ExpectValue (ByTestId "multimodal-input") (" @" +:+ d +:+ " ");
    Screenshot "jules-scratch/verification/verification.png" false ].

(** The steps of the whole context-tracker script. *)
Definition tracker_steps : list call :=
  [ Launch true; NewPage;
    Goto "http://localhost:3000";
    Screenshot "jules-scratch/verification/context_tracker.png" false;
    Close ].

Definition completed (steps : list call) : history :=
  List.map (fun c => (c, None)) steps.

(** A run of a list of steps: either every step ended well, in order, or the
    steps before the [n]-th did, the [n]-th raised [e], nothing followed, and
    [e] is what the run raised. *)
Inductive run_of {A} (steps : list call) : result A -> history -> Prop :=
| run_completed a :
    run_of steps (Ok a) (completed steps)
| run_aborted n c e :
    steps !! n = Some c ->
    run_of steps (Raise e) (completed (take n steps) ++ [(c, Some e)]).

(** [m] issues the steps [steps], from any world. *)
Definition emits {A} (m : M A) (steps : list call) : Prop :=
  forall w, exists h,
    calls (snd (m w)) = calls w ++ h /\ run_of steps (fst (m w)) h.

(** [m] sends nothing to the driver. *)
Definition silent {A} (m : M A) : Prop :=
  forall w, calls (snd (m w)) = calls w.

Definition is_assertion (c : call) : bool :=
  match c with
  | ExpectVisible _ | ExpectValue _ _ => true
  | _ => false
  end.

Definition is_ui_action (c : call) : bool :=
  match c with
  | Fill _ _ | Click _ => true
  | _ => false
  end.

Definition is_screenshot (c : call) : bool :=
  match c with
  | Screenshot _ _ => true
  | _ => false
  end.

(** The steps of the whole tagging script when none raises. *)
Definition tagging_script_steps : list call :=
  [Launch true; NewPage] ++ tagging_steps "Monet" ++ [Close].

(** Every screenshot that is saved comes after a UI action and after an
    assertion on the page. *)
Fixpoint acts_and_asserts_from (acted asserted : bool) (h : history) : bool :=
  match h with
  | [] => true
  | (c, o) :: h' =>
      match c, o with
      | Screenshot _ _, None =>
          acted && asserted && acts_and_asserts_from acted asserted h'
      | _, _ =>
          acts_and_asserts_from (acted || is_ui_action c)
                                (asserted || is_assertion c) h'
      end
  end.

Definition acts_and_asserts_before_capture (h : history) : bool :=
  acts_and_asserts_from false false h.

(** No UI action and no assertion at all. *)
Definition only_navigates_and_captures (h : history) : bool :=
  forallb (fun co => negb (is_ui_action (fst co)) && negb (is_assertion (fst co))) h.

(** Every screenshot is of the full page. *)
Definition captures_full_page (h : history) : bool :=
  forallb (fun co => match fst co with
                     | Screenshot _ full_page => full_page
                     | _ => true
                     end) h.

(** Every screenshot is of the viewport and goes to [path]. *)
Definition captures_viewport_at (path : string) (h : history) : bool :=
  forallb (fun co => match fst co with
                     | Screenshot p full_page => negb full_page && String.eqb p path
                     | _ => true
                     end) h.

(** Every navigation is to [url]. *)
Definition navigates_only_to (url : string) (h : history) : bool :=
  forallb (fun co => match fst co with
                     | Goto u => String.eqb u url
                     | _ => true
                     end) h.

(** The world [w] with another disk. *)
Definition with_disk (files : gmap string png) (w : world) : world :=
  World (argv w) (environ w) files (stderr w) (driver w) (browsers w) (pages w)
        (calls w).

(** The process configuration replaced by another. *)
Definition with_config (a : list string) (e : gmap string string) (w : world) : world :=
  World a e (fs w) (stderr w) (driver w) (browsers w) (pages w) (calls w).

(** [m] leaves the files alone. *)
Definition keeps_fs {A} (m : M A) : Prop :=
  forall w, fs (snd (m w)) = fs w.

(** [m] always returns. *)
Definition total {A} (m : M A) : Prop :=
  forall w, exists a, fst (m w) = Ok a.

(** [m] writes the file at [path] when it returns and no file when it raises. *)
Definition writes_once {A} (path : string) (m : M A) : Prop :=
  forall w, match fst (m w) with
            | Ok _ => exists img, fs (snd (m w)) = <[path := img]> (fs w)
            | Raise _ => fs (snd (m w)) = fs w
            end.

(** [m] does not look at the process configuration. *)
Definition oblivious {A} (m : M A) : Prop :=
  forall a e w, m (with_config a e w) = (fst (m w), with_config a e (snd (m w))).

(** The session a script opens: the browser and the page it gets, and the
    world once the driver runs, the browser is launched and the page is open. *)
Definition session_browser (w : world) : Browser := fresh (browsers w).
Definition session_page (w : world) : Page := fresh (dom (pages w)).
Definition session_world (headless : bool) (w : world) : world :=
  World (argv w) (environ w) (fs w) (stderr w) true
        ({[session_browser w]} ∪ browsers w)
        (<[session_page w := (session_browser w, [])]> (pages w))
        ((calls w ++ [(Launch headless, None)]) ++ [(NewPage, None)]).

(** The page of the tagging script after its fill, and after its click. *)
Definition page_after_fill (E : env) (i : nat) (d0 : dom_tree) : dom_tree :=
  on_input E i (set_value i "@" d0).
Definition page_after_click (E : env) (i j : nat) (d0 : dom_tree) : dom_tree :=
  on_click E j (page_after_fill E i d0).

(** What the tagging script sends to the driver: a failed launch and nothing
    else, or the session, the steps of [run_verification] up to the first
    failure, and the close of the [finally] block. *)
Inductive tagging_history : result unit -> history -> Prop :=
| tagging_no_launch :
    tagging_history (Raise LaunchError) [(Launch true, Some LaunchError)]
| tagging_session r h :
    run_of (tagging_steps "Monet") r h ->
    tagging_history r (completed [Launch true; NewPage] ++ h ++ [(Close, None)]).

(** ** The lines of [run_verification]

    What [run_verification] prints and what it sends to the driver, line by
    line in the order of the source. *)

Inductive event :=
| Say (line : string)
| Do (c : call).

Fixpoint lines_of (l : list event) : list string :=
  match l with
  | [] => []
  | Say s :: l' => s :: lines_of l'
  | Do _ :: l' => lines_of l'
  end.

Fixpoint commands_of (l : list event) : list call :=
  match l with
  | [] => []
  | Say _ :: l' => commands_of l'
  | Do c :: l' => c :: commands_of l'
  end.

(** The body of [run_verification], for the document name [d]. *)
Definition run_verification_lines (d : string) : list event :=
  [ Say "Starting verification script...";
    Say "Navigating to http://localhost:3000...";
    Do (Goto "http://localhost:3000");
    Say "Navigation complete.";
    Say "Filling input with '@'...";
    Do (Fill (ByTestId "multimodal-input") "@");
    Say "Fill complete.";
    Say "Waiting for document tagging component...";
    Do (ExpectVisible (ByTestId "document-tagging"));
    Say "Document tagging component is visible.";
    Say ("Clicking on '" +:+ d +:+ "'...");
    Do (Click (ByText d));
    Say "Click complete.";
    Say "Checking input value...";
    Do (ExpectValue (ByTestId "multimodal-input") (" @" +:+ d +:+ " "));
    Say "Input value is correct.";
    Say "Taking screenshot at jules-scratch/verification/verification.png...";
    Do (Screenshot "jules-scratch/verification/verification.png" false);
    Say "Screenshot taken.";
    Say "Verification script finished successfully." ].

(** A run from [w] went through the lines [L]: all of them when it returned;
    when it raised [x], the lines before the [n]-th, which is the command that
    raised [x]. *)
Definition runs_through {A} (L : list event) (w : world) (out : result A * world) : Prop :=
  match fst out with
  | Ok _ =>
      stderr (snd out) = stderr w ++ lines_of L
      /\ calls (snd out) = calls w ++ completed (commands_of L)
  | Raise x =>
      exists n c,
        L !! n = Some (Do c)
        /\ stderr (snd out) = stderr w ++ lines_of (take n L)
        /\ calls (snd out)
           = calls w ++ completed (commands_of (take n L)) ++ [(c, Some x)]
  end.

(** The application behaves as the tagging script expects: the page loads,
    the chat input can be filled, the document list shows, the entry "Monet"
    can be clicked, and the input then holds " @Monet ". *)
Definition tagging_scenario (E : env) : Prop :=
  exists d0 i k e j m inp,
    serve E "http://localhost:3000" = Some d0
    /\ action_target E Filling (ByTestId "multimodal-input") d0 = Ok i
    /\ resolve E (ByTestId "document-tagging") (page_after_fill E i d0) = [(k, e)]
    /\ el_visible e = true
    /\ action_target E Clicking (ByText "Monet") (page_after_fill E i d0) = Ok j
    /\ resolve E (ByTestId "multimodal-input") (page_after_click E i j d0) = [(m, inp)]
    /\ el_value inp = " @Monet ".

(** The chat input is there, visible and enabled, but read-only. *)
Definition read_only_input : element :=
  Element (Some "multimodal-input") "" "old text" true true false true true.

Definition chat_app_read_only : env :=
  {| can_launch := fun _ => true;
     serve := fun _ => Some [read_only_input];
     text_matches := String.eqb;
     on_input := fun _ d => d;
     on_click := fun _ d => d;
     render := stub_render;
     can_write := fun _ => true |}.

(** No browser can be launched. *)
Definition no_browser : env :=
  {| can_launch := fun _ => false;
     serve := fun _ => None;
     text_matches := String.eqb;
     on_input := fun _ d => d;
     on_click := fun _ d => d;
     render := stub_render;
     can_write := fun _ => true |}.

(** ** The blocks under [with sync_playwright() as p:]

    What each script does between the start and the stop of the driver. *)



(** [m] leaves the set of open browsers as it found it. *)
Definition keeps_browsers {A} (m : M A) : Prop :=
  forall w, browsers (snd (m w)) = browsers w.

(** The commands before the first screenshot of a history, if it has one. *)
Fixpoint before_capture (h : history) : option history :=
  match h with
  | [] => None
  | (Screenshot _ _, _) :: _ => Some []
  | co :: h' => option_map (cons co) (before_capture h')
  end.

(** The session and the five steps that come before the screenshot of the
    tagging script, all ended well. *)
Definition tagging_checks : history :=
  completed [ Launch true; NewPage;
              Goto "http://localhost:3000";
              Fill (ByTestId "multimodal-input") "@";
              ExpectVisible (ByTestId "document-tagging");
              Click (ByText "Monet");
              ExpectValue (ByTestId "multimodal-input") " @Monet " ].

(** * Proofs *)

(** ** The monad *)

Lemma bind_Ok {A B} (m : M A) (k : A -> M B) w a w' :
  m w = (Ok a, w') -> bind m k w = k a w'.
Proof. unfold bind. intros ->. reflexivity. Qed.

Lemma bind_Raise {A B} (m : M A) (k : A -> M B) w e w' :
  m w = (Raise e, w') -> bind m k w = (Raise e, w').
Proof. unfold bind. intros ->. reflexivity. Qed.

(** ** Runs of steps *)

Lemma completed_app s1 s2 : completed (s1 ++ s2) = completed s1 ++ completed s2.
Proof. unfold completed. apply List.map_app. Qed.

Lemma run_of_Raise_any {A B} steps e h :
  @run_of A steps (Raise e) h -> @run_of B steps (Raise e) h.
Proof. inversion 1; subst. now constructor. Qed.

Lemma run_of_app_l {A} s1 s2 e h :
  @run_of A s1 (Raise e) h -> @run_of A (s1 ++ s2) (Raise e) h.
Proof.
  inversion 1 as [|n c e' Hn]; subst.
  assert (n < length s1) as Hlt by (eapply lookup_lt_Some; eauto).
  replace (take n s1) with (take n (s1 ++ s2))
    by (rewrite take_app_le; auto with lia).
  constructor. rewrite lookup_app_l; auto.
Qed.

Lemma run_of_app_r {A} s1 s2 (r : result A) h :
  run_of s2 r h -> run_of (s1 ++ s2) r (completed s1 ++ h).
Proof.
  inversion 1 as [a|n c e Hn]; subst.
  - rewrite <- completed_app. constructor.
  - rewrite app_assoc, <- completed_app.
    replace (s1 ++ take n s2) with (take (length s1 + n) (s1 ++ s2))
      by (rewrite take_app_add'; auto).
    constructor. rewrite lookup_app_r by lia.
    replace (length s1 + n - length s1) with n by lia. assumption.
Qed.

Lemma run_of_Ok_inv {A} steps (a : A) h :
  run_of steps (Ok a) h -> h = completed steps.
Proof. inversion 1; reflexivity. Qed.

Lemma emits_bind {A B} (m : M A) (k : A -> M B) s1 s2 :
  emits m s1 -> (forall a, emits (k a) s2) -> emits (bind m k) (s1 ++ s2).
Proof.
  intros Hm Hk w. unfold bind.
  destruct (Hm w) as (h1 & Hc1 & Hr1).
  destruct (m w) as [[a|e] w1]; simpl in *.
  - destruct (Hk a w1) as (h2 & Hc2 & Hr2).
    exists (h1 ++ h2). split.
    + rewrite Hc2, Hc1, app_assoc. reflexivity.
    + rewrite (run_of_Ok_inv _ _ _ Hr1). now apply run_of_app_r.
  - exists h1. split; [assumption|].
    apply run_of_app_l. eapply run_of_Raise_any; eauto.
Qed.

Lemma emits_then {A B} (m : M A) (k : A -> M B) s1 s2 s :
  emits m s1 -> (forall a, emits (k a) s2) -> s = s1 ++ s2 -> emits (bind m k) s.
Proof. intros Hm Hk ->. now apply emits_bind. Qed.

Lemma emits_silent {A} (m : M A) :
  silent m -> (forall w e, fst (m w) <> Raise e) -> emits m [].
Proof.
  intros Hs Hok w. exists []. rewrite app_nil_r. split; [apply Hs|].
  destruct (fst (m w)) as [a|e] eqn:Hr.
  - constructor.
  - exfalso. eapply Hok; eauto.
Qed.

Lemma emits_driver_call {A} c (body : M A) :
  silent body -> emits (driver_call c body) [c].
Proof.
  intros Hs w. unfold driver_call. specialize (Hs w).
  destruct (body w) as [r w1]; simpl in *.
  exists [(c, outcome r)]. split; [now rewrite Hs|].
  destruct r as [a|e]; simpl.
  - apply (run_completed [c] a).
  - apply (run_aborted [c] 0 c e). reflexivity.
Qed.

Lemma silent_bind {A B} (m : M A) (k : A -> M B) :
  silent m -> (forall a, silent (k a)) -> silent (bind m k).
Proof.
  intros Hm Hk w. unfold bind. specialize (Hm w).
  destruct (m w) as [[a|e] w1]; simpl in *; [|assumption].
  rewrite (Hk a w1). assumption.
Qed.

Lemma silent_print s : silent (print s).
Proof. intros w. reflexivity. Qed.

Lemma silent_get_page page : silent (get_page page).
Proof. intros w. unfold get_page. destruct (pages w !! page); reflexivity. Qed.

Lemma silent_set_dom page b d : silent (set_dom page b d).
Proof. intros w. reflexivity. Qed.

Lemma silent_write_file path data : silent (write_file path data).
Proof. intros w. reflexivity. Qed.

Lemma silent_raise {A} e : silent (@raise A e).
Proof. intros w. reflexivity. Qed.

Lemma silent_ret {A} (a : A) : silent (ret a).
Proof. intros w. reflexivity. Qed.

Lemma silent_lift {A} (r : result A) : silent (lift r).
Proof. intros w. reflexivity. Qed.

Lemma emits_print s : emits (print s) [].
Proof. apply emits_silent; [apply silent_print|]. intros w e. discriminate. Qed.

Create HintDb script discriminated.
#[export] Hint Resolve silent_bind silent_print silent_get_page silent_set_dom
  silent_write_file silent_raise silent_ret silent_lift : script.

(** ** The driver's commands, one step each *)

Section DriverSteps.
Context (E : env).

Lemma emits_page_goto page url : emits (page_goto E page url) [Goto url].
Proof.
  apply emits_driver_call. apply silent_bind; auto with script.
  intros bd. destruct (serve E url); auto with script.
Qed.

Lemma emits_locator_fill l value :
  emits (locator_fill E l value) [Fill (loc_selector l) value].
Proof. apply emits_driver_call. auto 6 with script. Qed.

Lemma emits_locator_click l :
  emits (locator_click E l) [Click (loc_selector l)].
Proof. apply emits_driver_call. auto 6 with script. Qed.

Lemma emits_expect_to_be_visible l :
  emits (expect_to_be_visible E l) [ExpectVisible (loc_selector l)].
Proof.
  apply emits_driver_call. apply silent_bind; auto with script.
  intros bd. destruct (resolve E (loc_selector l) bd.2) as [|[k e] [|? ?]];
    auto with script.
  destruct (el_visible e); auto with script.
Qed.

Lemma emits_expect_to_have_value l expected :
  emits (expect_to_have_value E l expected)
        [ExpectValue (loc_selector l) expected].
Proof.
  apply emits_driver_call. apply silent_bind; auto with script.
  intros bd. destruct (resolve E (loc_selector l) bd.2) as [|[k e] [|? ?]];
    auto with script.
  destruct (bool_decide (el_value e = expected)); auto with script.
Qed.

Lemma emits_page_screenshot page path full_page :
  emits (page_screenshot E page path full_page)
        [Screenshot path (default false full_page)].
Proof.
  apply emits_driver_call. apply silent_bind; auto with script.
  intros bd. destruct (can_write E path); auto with script.
Qed.

(** [run_verification] issues its six steps in the order of the source and
    stops at the first that raises. *)
Lemma emits_run_verification_with d page :
  emits (run_verification_with E d page) (tagging_steps d).
Proof.
  unfold run_verification_with, tagging_steps.
  repeat lazymatch goal with
  | |- emits (bind (print _) _) _ =>
      eapply emits_then; [apply emits_print | | reflexivity]; intros _
  | |- emits (bind _ _) _ =>
      eapply emits_then;
      [ first [ apply emits_page_goto | apply emits_locator_fill
              | apply emits_locator_click | apply emits_expect_to_be_visible
              | apply emits_expect_to_have_value | apply emits_page_screenshot ]
      | | reflexivity ]; intros _
  | |- emits (print _) _ => apply emits_print
  end.
Qed.

End DriverSteps.

(** ** Symbolic execution of a script along one path *)

Ltac exec_unfold :=
  unfold verify_document_tagging, verify_context_tracker, with_sync_playwright,
    try_finally, start_driver, stop_driver, chromium_launch, new_page,
    browser_close, run_verification, run_verification_with, page_goto,
    locator_fill, locator_click, expect_to_be_visible, expect_to_have_value,
    page_screenshot, get_by_test_id, get_by_text, driver_call, bind, print,
    get_page, set_dom, write_file, lift, raise, ret.

Lemma fresh_browser_open (bs : gset Browser) :
  bool_decide (fresh bs ∈ {[fresh bs]} ∪ bs) = true.
Proof. apply bool_decide_eq_true_2. set_solver. Qed.

Ltac reduce_world :=
  cbn [fst snd argv environ fs stderr driver browsers pages calls
       loc_page loc_selector outcome from_option id].

Ltac exec_step :=
  first
    [ progress reduce_world
    | rewrite lookup_insert_eq
    | rewrite fresh_browser_open
    | match goal with H : ?x = _ |- context [?x] => rewrite H end ].

Ltac exec := exec_unfold; repeat exec_step.

(** The paths that remain once the hypotheses are used up. *)
Ltac split_step :=
  match goal with
  | |- context [match ?x with _ => _ end] =>
      lazymatch x with
      | context [match _ with _ => _ end] => fail
      | _ => destruct x eqn:?
      end
  end.

Ltac in_list := repeat first [apply list_elem_of_here | apply list_elem_of_further].

Ltac flatten_history := rewrite <- ?app_assoc; cbn [app completed List.map take].

(** ** The session *)

Section Session.
Context (E : env).

Lemma session_page_open headless w :
  pages (session_world headless w) !! session_page w
  = Some (session_browser w, []).
Proof. apply lookup_insert_eq. Qed.

Lemma session_browser_open w :
  bool_decide (session_browser w ∈ {[session_browser w]} ∪ browsers w) = true.
Proof. apply fresh_browser_open. Qed.

(** With the browser launched, the tagging script is [run_verification] on
    the page of the session, then the close, then the end of the driver. *)
Lemma verify_document_tagging_launched w :
  can_launch E true = true ->
  let rw := run_verification E (session_page w) (session_world true w) in
  let out := verify_document_tagging E w in
  fst out = fst rw
  /\ calls (snd out) = calls (snd rw) ++ [(Close, None)]
  /\ fs (snd out) = fs (snd rw)
  /\ stderr (snd out) = stderr (snd rw)
  /\ argv (snd out) = argv (snd rw)
  /\ environ (snd out) = environ (snd rw).
Proof.
  intros Hl. cbv zeta.
  unfold verify_document_tagging, with_sync_playwright, try_finally,
    start_driver, stop_driver, chromium_launch, new_page, browser_close,
    driver_call, bind.
  reduce_world.
  rewrite Hl.
  reduce_world.
  fold (session_browser w). rewrite session_browser_open.
  reduce_world.
  fold (session_page w). fold (session_world true w).
  destruct (run_verification E (session_page w) (session_world true w))
    as [[[]|e] w2]; cbn; auto 10.
Qed.

Lemma verify_document_tagging_not_launched w :
  can_launch E true = false ->
  let out := verify_document_tagging E w in
  fst out = Raise LaunchError
  /\ calls (snd out) = calls w ++ [(Launch true, Some LaunchError)]
  /\ fs (snd out) = fs w
  /\ stderr (snd out) = stderr w.
Proof. intros Hl. cbv zeta. exec. auto. Qed.

Lemma verify_document_tagging_history w :
  exists h,
    calls (snd (verify_document_tagging E w)) = calls w ++ h
    /\ tagging_history (fst (verify_document_tagging E w)) h.
Proof.
  destruct (can_launch E true) eqn:Hl.
  - destruct (verify_document_tagging_launched w Hl) as (Hr & Hc & _).
    destruct (emits_run_verification_with E "Monet" (session_page w)
                (session_world true w)) as (h & Hh & Hrun).
    exists (completed [Launch true; NewPage] ++ h ++ [(Close, None)]). split.
    + rewrite Hc. unfold run_verification. rewrite Hh.
      cbn [session_world calls]. flatten_history. reflexivity.
    + rewrite Hr. now constructor.
  - destruct (verify_document_tagging_not_launched w Hl) as (Hr & Hc & _).
    exists [(Launch true, Some LaunchError)]. split; [assumption|].
    rewrite Hr. constructor.
Qed.

End Session.

(** ** Files: which commands write, and where *)

Lemma keeps_fs_bind {A B} (m : M A) (k : A -> M B) :
  keeps_fs m -> (forall a, keeps_fs (k a)) -> keeps_fs (bind m k).
Proof.
  intros Hm Hk w. unfold bind. specialize (Hm w).
  destruct (m w) as [[a|e] w1]; simpl in *; [|assumption].
  now rewrite (Hk a w1).
Qed.

Lemma keeps_fs_driver_call {A} c (body : M A) :
  keeps_fs body -> keeps_fs (driver_call c body).
Proof.
  intros Hb w. unfold driver_call. specialize (Hb w).
  destruct (body w) as [r w1]. assumption.
Qed.

Lemma keeps_fs_try_finally {A} (body : M A) fin :
  keeps_fs body -> keeps_fs fin -> keeps_fs (try_finally body fin).
Proof.
  intros Hb Hf w. unfold try_finally. specialize (Hb w).
  destruct (body w) as [[a|e] w1]; simpl in *; specialize (Hf w1);
    destruct (fin w1) as [[u|e'] w2]; simpl in *; congruence.
Qed.

Lemma keeps_fs_print s : keeps_fs (print s).
Proof. intros w. reflexivity. Qed.

Lemma keeps_fs_get_page page : keeps_fs (get_page page).
Proof. intros w. unfold get_page. destruct (pages w !! page); reflexivity. Qed.

Lemma keeps_fs_set_dom page b d : keeps_fs (set_dom page b d).
Proof. intros w. reflexivity. Qed.

Lemma keeps_fs_raise {A} e : keeps_fs (@raise A e).
Proof. intros w. reflexivity. Qed.

Lemma keeps_fs_ret {A} (a : A) : keeps_fs (ret a).
Proof. intros w. reflexivity. Qed.

Lemma keeps_fs_lift {A} (r : result A) : keeps_fs (lift r).
Proof. intros w. reflexivity. Qed.

#[export] Hint Resolve keeps_fs_bind keeps_fs_driver_call keeps_fs_print
  keeps_fs_get_page keeps_fs_set_dom keeps_fs_raise keeps_fs_ret keeps_fs_lift
  : script.

Lemma total_print s : total (print s).
Proof. intros w. now exists tt. Qed.

Lemma total_bind {A B} (m : M A) (k : A -> M B) :
  total m -> (forall a, total (k a)) -> total (bind m k).
Proof.
  intros Hm Hk w. unfold bind. destruct (Hm w) as [a Ha].
  destruct (m w) as [r w1]; simpl in Ha; subst r. apply Hk.
Qed.

Lemma writes_once_after {A B} path (m : M A) (k : A -> M B) :
  keeps_fs m -> (forall a, writes_once path (k a)) -> writes_once path (bind m k).
Proof.
  intros Hm Hk w. unfold bind. specialize (Hm w).
  destruct (m w) as [[a|e] w1]; simpl in *; [|assumption].
  specialize (Hk a w1). now rewrite Hm in Hk.
Qed.

Lemma writes_once_before {A B} path (m : M A) (k : A -> M B) :
  writes_once path m -> (forall a, keeps_fs (k a)) -> (forall a, total (k a)) ->
  writes_once path (bind m k).
Proof.
  intros Hm Hk Ht w. unfold bind. specialize (Hm w).
  destruct (m w) as [[a|e] w1]; simpl in *; [|assumption].
  destruct (Ht a w1) as [b Hb]. rewrite Hb, (Hk a w1). assumption.
Qed.

Lemma writes_once_try_finally {A} path (body : M A) fin :
  writes_once path body -> keeps_fs fin -> total fin ->
  writes_once path (try_finally body fin).
Proof.
  intros Hb Hf Ht w. unfold try_finally. specialize (Hb w).
  destruct (body w) as [[a|e] w1]; simpl in *; specialize (Hf w1);
    destruct (Ht w1) as [u Hu]; destruct (fin w1) as [r w2]; simpl in *;
    subst r; simpl; now rewrite Hf.
Qed.

Section DriverFiles.
Context (E : env).

Lemma keeps_fs_page_goto page url : keeps_fs (page_goto E page url).
Proof.
  unfold page_goto. apply keeps_fs_driver_call, keeps_fs_bind; auto with script.
  intros bd. destruct (serve E url); auto with script.
Qed.

Lemma keeps_fs_locator_fill l value : keeps_fs (locator_fill E l value).
Proof. unfold locator_fill. auto 6 with script. Qed.

Lemma keeps_fs_locator_click l : keeps_fs (locator_click E l).
Proof. unfold locator_click. auto 6 with script. Qed.

Lemma keeps_fs_expect_to_be_visible l : keeps_fs (expect_to_be_visible E l).
Proof.
  unfold expect_to_be_visible.
  apply keeps_fs_driver_call, keeps_fs_bind; auto with script.
  intros bd. destruct (resolve E (loc_selector l) bd.2) as [|[k e] [|? ?]];
    auto with script.
  destruct (el_visible e); auto with script.
Qed.

Lemma keeps_fs_expect_to_have_value l expected :
  keeps_fs (expect_to_have_value E l expected).
Proof.
  unfold expect_to_have_value.
  apply keeps_fs_driver_call, keeps_fs_bind; auto with script.
  intros bd. destruct (resolve E (loc_selector l) bd.2) as [|[k e] [|? ?]];
    auto with script.
  destruct (bool_decide (el_value e = expected)); auto with script.
Qed.

Lemma keeps_fs_chromium_launch p headless :
  keeps_fs (chromium_launch E p headless).
Proof.
  unfold chromium_launch. apply keeps_fs_driver_call.
  destruct (can_launch E _); [|auto with script]. intros w. reflexivity.
Qed.

Lemma keeps_fs_new_page browser : keeps_fs (new_page browser).
Proof.
  unfold new_page. apply keeps_fs_driver_call. intros w.
  destruct (bool_decide _); reflexivity.
Qed.

Lemma keeps_fs_browser_close browser : keeps_fs (browser_close browser).
Proof. unfold browser_close. apply keeps_fs_driver_call. intros w. reflexivity. Qed.

Lemma total_browser_close browser : total (browser_close browser).
Proof. intros w. now exists tt. Qed.

Lemma writes_once_page_screenshot page path full_page :
  writes_once path (page_screenshot E page path full_page).
Proof.
  intros w. unfold page_screenshot, driver_call, bind, get_page, write_file, raise.
  destruct (pages w !! page) as [bd|]; [|reflexivity].
  destruct (can_write E path); simpl; eauto.
Qed.

Lemma writes_once_with_sync_playwright {A} path (body : Playwright -> M A) :
  (forall p, writes_once path (body p)) ->
  writes_once path (with_sync_playwright body).
Proof.
  intros Hb. unfold with_sync_playwright.
  apply writes_once_after; [intros w; reflexivity|]. intros p.
  apply writes_once_try_finally; [apply Hb| |]; intros w;
    [reflexivity | now exists tt].
Qed.

Hint Resolve keeps_fs_page_goto keeps_fs_locator_fill keeps_fs_locator_click
  keeps_fs_expect_to_be_visible keeps_fs_expect_to_have_value
  keeps_fs_chromium_launch keeps_fs_new_page keeps_fs_browser_close
  total_print total_bind total_browser_close : script.

Lemma writes_once_run_verification_with d page :
  writes_once "jules-scratch/verification/verification.png"
              (run_verification_with E d page).
Proof.
  unfold run_verification_with.
  repeat (apply writes_once_after; [solve [auto with script] | intros _]).
  apply writes_once_before; auto with script.
  apply writes_once_page_screenshot.
Qed.

Lemma writes_once_verify_document_tagging :
  writes_once "jules-scratch/verification/verification.png"
              (verify_document_tagging E).
Proof.
  apply writes_once_with_sync_playwright. intros p.
  apply writes_once_after; [auto with script | intros browser].
  apply writes_once_after; [auto with script | intros page].
  apply writes_once_try_finally; auto with script.
  apply writes_once_run_verification_with.
Qed.

Lemma writes_once_verify_context_tracker :
  writes_once "jules-scratch/verification/context_tracker.png"
              (verify_context_tracker E).
Proof.
  apply writes_once_with_sync_playwright. intros p.
  apply writes_once_after; [auto with script | intros browser].
  apply writes_once_after; [auto with script | intros page].
  apply writes_once_after; [auto with script | intros _].
  apply writes_once_before; auto with script.
  apply writes_once_page_screenshot.
Qed.

End DriverFiles.

(** ** The session commands, and the context-tracker script, step by step *)

Section TrackerSteps.
Context (E : env).

Lemma emits_chromium_launch p headless :
  emits (chromium_launch E p headless) [Launch (default true headless)].
Proof.
  apply emits_driver_call. destruct (can_launch E _); auto with script.
  intros w. reflexivity.
Qed.

Lemma emits_new_page browser : emits (new_page browser) [NewPage].
Proof.
  apply emits_driver_call. intros w. destruct (bool_decide _); reflexivity.
Qed.

Lemma emits_browser_close browser : emits (browser_close browser) [Close].
Proof. apply emits_driver_call. intros w. reflexivity. Qed.

Lemma emits_with_sync_playwright {A} (body : Playwright -> M A) steps :
  (forall p, emits (body p) steps) -> emits (with_sync_playwright body) steps.
Proof.
  intros Hb w. unfold with_sync_playwright, bind, start_driver, try_finally,
    stop_driver.
  match goal with
  | |- context [body PlaywrightDriver ?w0] =>
      destruct (Hb PlaywrightDriver w0) as (h & Hc & Hr);
      destruct (body PlaywrightDriver w0) as [[a|e] w1]
  end; exists h; simpl in *; auto.
Qed.

(** The context-tracker script issues its five steps in the order of the
    source and stops at the first that raises. *)
Lemma emits_verify_context_tracker :
  emits (verify_context_tracker E) tracker_steps.
Proof.
  apply emits_with_sync_playwright. intros p. unfold tracker_steps.
  eapply emits_then; [apply emits_chromium_launch | | reflexivity].
  intros browser.
  eapply emits_then; [apply emits_new_page | | reflexivity]. intros page.
  eapply emits_then; [apply emits_page_goto | | reflexivity]. intros _.
  eapply emits_then; [apply emits_page_screenshot | | reflexivity]. intros _.
  apply emits_browser_close.
Qed.

End TrackerSteps.

(** ** The process configuration is never read *)

Lemma oblivious_bind {A B} (m : M A) (k : A -> M B) :
  oblivious m -> (forall a, oblivious (k a)) -> oblivious (bind m k).
Proof.
  intros Hm Hk a e w. unfold bind. rewrite Hm.
  destruct (m w) as [[x|x] w1]; simpl; [apply Hk | reflexivity].
Qed.

Lemma oblivious_driver_call {A} c (body : M A) :
  oblivious body -> oblivious (driver_call c body).
Proof.
  intros Hb a e w. unfold driver_call. rewrite Hb.
  destruct (body w) as [r w1]. reflexivity.
Qed.

Lemma oblivious_try_finally {A} (body : M A) fin :
  oblivious body -> oblivious fin -> oblivious (try_finally body fin).
Proof.
  intros Hb Hf a e w. unfold try_finally. rewrite Hb.
  destruct (body w) as [[x|x] w1]; simpl; rewrite Hf;
    destruct (fin w1) as [[u|e'] w2]; reflexivity.
Qed.

Lemma oblivious_print s : oblivious (print s).
Proof. intros a e w. reflexivity. Qed.

Lemma oblivious_get_page page : oblivious (get_page page).
Proof.
  intros a e w. unfold get_page. simpl. destruct (pages w !! page); reflexivity.
Qed.

Lemma oblivious_set_dom page b d : oblivious (set_dom page b d).
Proof. intros a e w. reflexivity. Qed.

Lemma oblivious_write_file path data : oblivious (write_file path data).
Proof. intros a e w. reflexivity. Qed.

Lemma oblivious_raise {A} x : oblivious (@raise A x).
Proof. intros a e w. reflexivity. Qed.

Lemma oblivious_ret {A} (x : A) : oblivious (ret x).
Proof. intros a e w. reflexivity. Qed.

Lemma oblivious_lift {A} (r : result A) : oblivious (lift r).
Proof. intros a e w. reflexivity. Qed.

Lemma oblivious_start_driver : oblivious start_driver.
Proof. intros a e w. reflexivity. Qed.

Lemma oblivious_stop_driver : oblivious stop_driver.
Proof. intros a e w. reflexivity. Qed.

Lemma oblivious_new_page browser : oblivious (new_page browser).
Proof.
  apply oblivious_driver_call. intros a e w. simpl.
  destruct (bool_decide _); reflexivity.
Qed.

Lemma oblivious_browser_close browser : oblivious (browser_close browser).
Proof. apply oblivious_driver_call. intros a e w. reflexivity. Qed.

#[export] Hint Resolve oblivious_bind oblivious_driver_call oblivious_try_finally
  oblivious_print oblivious_get_page oblivious_set_dom oblivious_write_file
  oblivious_raise oblivious_ret oblivious_lift oblivious_start_driver
  oblivious_stop_driver oblivious_new_page oblivious_browser_close : script.

Section DriverConfig.
Context (E : env).

Lemma oblivious_chromium_launch p headless :
  oblivious (chromium_launch E p headless).
Proof.
  apply oblivious_driver_call. destruct (can_launch E _); auto with script.
  intros a e w. reflexivity.
Qed.

Lemma oblivious_page_goto page url : oblivious (page_goto E page url).
Proof.
  apply oblivious_driver_call, oblivious_bind; auto with script.
  intros bd. destruct (serve E url); auto with script.
Qed.

Lemma oblivious_locator_fill l value : oblivious (locator_fill E l value).
Proof. unfold locator_fill. auto 6 with script. Qed.

Lemma oblivious_locator_click l : oblivious (locator_click E l).
Proof. unfold locator_click. auto 6 with script. Qed.

Lemma oblivious_expect_to_be_visible l : oblivious (expect_to_be_visible E l).
Proof.
  apply oblivious_driver_call, oblivious_bind; auto with script.
  intros bd. destruct (resolve E (loc_selector l) bd.2) as [|[k e] [|? ?]];
    auto with script.
  destruct (el_visible e); auto with script.
Qed.

Lemma oblivious_expect_to_have_value l expected :
  oblivious (expect_to_have_value E l expected).
Proof.
  apply oblivious_driver_call, oblivious_bind; auto with script.
  intros bd. destruct (resolve E (loc_selector l) bd.2) as [|[k e] [|? ?]];
    auto with script.
  destruct (bool_decide (el_value e = expected)); auto with script.
Qed.

Lemma oblivious_page_screenshot page path full_page :
  oblivious (page_screenshot E page path full_page).
Proof.
  apply oblivious_driver_call, oblivious_bind; auto with script.
  intros bd. destruct (can_write E path); auto with script.
Qed.

Hint Resolve oblivious_chromium_launch oblivious_page_goto
  oblivious_locator_fill oblivious_locator_click
  oblivious_expect_to_be_visible oblivious_expect_to_have_value
  oblivious_page_screenshot : script.

Lemma oblivious_run_verification page : oblivious (run_verification E page).
Proof.
  unfold run_verification, run_verification_with.
  repeat (apply oblivious_bind; [solve [auto with script] | intros _]).
  auto with script.
Qed.

Lemma oblivious_verify_document_tagging : oblivious (verify_document_tagging E).
Proof.
  unfold verify_document_tagging, with_sync_playwright.
  apply oblivious_bind; [auto with script | intros p].
  apply oblivious_try_finally; [|auto with script].
  apply oblivious_bind; [auto with script | intros browser].
  apply oblivious_bind; [auto with script | intros page].
  apply oblivious_try_finally; [|auto with script].
  apply oblivious_run_verification.
Qed.

Lemma oblivious_verify_context_tracker : oblivious (verify_context_tracker E).
Proof.
  unfold verify_context_tracker, with_sync_playwright.
  apply oblivious_bind; [auto with script | intros p].
  apply oblivious_try_finally; [|auto with script].
  repeat (apply oblivious_bind; [solve [auto with script] | intros ?]).
  auto with script.
Qed.

End DriverConfig.

(** ** What a run of steps tells *)

Lemma completed_no_failure steps c e : (c, Some e) ∉ completed steps.
Proof.
  unfold completed. intros Hin. apply list_elem_of_In, List.in_map_iff in Hin.
  destruct Hin as (c' & Heq & _). discriminate.
Qed.

Lemma completed_fst steps : (completed steps).*1 = steps.
Proof.
  induction steps as [|c steps IH]; [reflexivity|].
  unfold completed in *. csimpl. now rewrite IH.
Qed.

Lemma run_of_prefix {A} steps (r : result A) h :
  run_of steps r h -> exists n, h.*1 = take n steps.
Proof.
  inversion 1 as [a|n c e Hn]; subst.
  - exists (length steps). now rewrite completed_fst, firstn_all.
  - exists (S n). rewrite fmap_app, completed_fst. simpl.
    now rewrite (take_S_r _ _ _ Hn).
Qed.

Lemma run_of_elem {A} steps (r : result A) h c o :
  run_of steps r h -> (c, o) ∈ h -> c ∈ steps.
Proof.
  intros Hrun Hin. destruct (run_of_prefix _ _ _ Hrun) as [n Hn].
  assert (c ∈ h.*1) as Hc by (apply list_elem_of_fmap; exists (c, o); auto).
  rewrite Hn in Hc. eapply elem_of_sublist; [exact Hc | apply sublist_take].
Qed.

Lemma run_of_failure {A} steps (r : result A) h c e :
  run_of steps r h -> (c, Some e) ∈ h -> r = Raise e.
Proof.
  inversion 1 as [a|n c' e' Hn]; subst; intros Hin.
  - now apply completed_no_failure in Hin.
  - apply elem_of_app in Hin as [Hin|Hin].
    + now apply completed_no_failure in Hin.
    + apply list_elem_of_singleton in Hin. congruence.
Qed.

Lemma run_of_exit_status steps (r : result unit) h :
  run_of steps r h -> (exit_status r = 0%Z <-> h = completed steps).
Proof.
  intros Hrun. split.
  - destruct r; [intros _; eapply run_of_Ok_inv; eauto | discriminate].
  - intros ->. destruct r as [u|e]; [reflexivity|]. exfalso.
    inversion Hrun as [|n c e' Hn Hr Hh]; subst.
    apply (completed_no_failure steps c e). rewrite <- Hh.
    apply elem_of_app. right. constructor.
Qed.

Lemma run_of_NoDup {A} steps (r : result A) h :
  NoDup steps -> run_of steps r h -> NoDup h.*1.
Proof.
  intros Hnd Hrun. destruct (run_of_prefix _ _ _ Hrun) as [n ->].
  eapply sublist_NoDup; [|apply sublist_take]. assumption.
Qed.

Lemma tagging_steps_NoDup d : NoDup (tagging_steps d).
Proof.
  unfold tagging_steps.
  repeat (apply NoDup_cons; split;
          [rewrite ?elem_of_cons, elem_of_nil; intuition discriminate|]).
  apply NoDup_nil_2.
Qed.

Lemma tracker_steps_NoDup : NoDup tracker_steps.
Proof.
  unfold tracker_steps.
  repeat (apply NoDup_cons; split;
          [rewrite ?elem_of_cons, elem_of_nil; intuition discriminate|]).
  apply NoDup_nil_2.
Qed.

(** The same facts for the whole tagging script, whose close comes after a
    failed step as well. *)

Lemma tagging_history_failure r h c e :
  tagging_history r h -> (c, Some e) ∈ h -> r = Raise e.
Proof.
  inversion 1 as [|r' hb Hrun]; subst; intros Hin.
  - apply list_elem_of_singleton in Hin. congruence.
  - rewrite !elem_of_app in Hin. destruct Hin as [Hin|[Hin|Hin]].
    + now apply completed_no_failure in Hin.
    + eapply run_of_failure; eauto.
    + apply list_elem_of_singleton in Hin. discriminate.
Qed.

Lemma tagging_history_exit_status r h :
  tagging_history r h ->
  (exit_status r = 0%Z <->
   h = completed ([Launch true; NewPage] ++ tagging_steps "Monet" ++ [Close])).
Proof.
  inversion 1 as [|r' hb Hrun]; subst.
  - split; discriminate.
  - rewrite (run_of_exit_status _ _ _ Hrun), !completed_app. split.
    + now intros ->.
    + intros Heq. apply app_inv_head in Heq. now apply app_inv_tail in Heq.
Qed.

Lemma tagging_history_NoDup r h : tagging_history r h -> NoDup h.*1.
Proof.
  inversion 1 as [|r' hb Hrun]; subst.
  - apply NoDup_singleton.
  - destruct (run_of_prefix _ _ _ Hrun) as [n Hn].
    rewrite !fmap_app, Hn, completed_fst.
    eapply (sublist_NoDup _ ([Launch true; NewPage] ++ tagging_steps "Monet" ++ [Close])).
    + cbn [app tagging_steps].
      repeat (apply NoDup_cons; split;
              [rewrite ?elem_of_cons, elem_of_nil; intuition discriminate|]).
      apply NoDup_nil_2.
    + apply sublist_app; [reflexivity|].
      apply sublist_app; [apply sublist_take | reflexivity].
Qed.

Lemma with_sync_playwright_stops {A} (body : Playwright -> M A) w :
  let w' := snd (with_sync_playwright body w) in
  browsers w' = ∅ /\ pages w' = ∅ /\ driver w' = false.
Proof.
  cbv zeta. unfold with_sync_playwright, bind, start_driver, try_finally,
    stop_driver.
  match goal with
  | |- context [body PlaywrightDriver ?w0] =>
      destruct (body PlaywrightDriver w0) as [[a|e] w1]
  end; simpl; auto.
Qed.

Lemma run_of_Raise_inv {A} steps x h :
  @run_of A steps (Raise x) h -> exists c, (c, Some x) ∈ h.
Proof.
  inversion 1 as [|n c e Hn]; subst. exists c.
  apply elem_of_app. right. constructor.
Qed.

Lemma tagging_history_sublist r h :
  tagging_history r h -> h.*1 `sublist_of` tagging_script_steps.
Proof.
  inversion 1 as [|r' hb Hrun]; subst.
  - apply sublist_skip, sublist_nil_l.
  - destruct (run_of_prefix _ _ _ Hrun) as [n Hn].
    rewrite !fmap_app, Hn, completed_fst. unfold tagging_script_steps.
    apply sublist_app; [reflexivity|].
    apply sublist_app; [apply sublist_take | reflexivity].
Qed.

Lemma tagging_steps_click d sel : Click sel ∈ tagging_steps d -> sel = ByText d.
Proof.
  unfold tagging_steps. rewrite !elem_of_cons, elem_of_nil.
  intros H. decompose [or] H; try discriminate; try contradiction. congruence.
Qed.

Lemma tagging_steps_expected d sel x :
  ExpectValue sel x ∈ tagging_steps d ->
  sel = ByTestId "multimodal-input" /\ x = " @" +:+ d +:+ " ".
Proof.
  unfold tagging_steps. rewrite !elem_of_cons, elem_of_nil.
  intros H. decompose [or] H; try discriminate; try contradiction.
  split; congruence.
Qed.

(** ** [run_verification] along its paths *)

Section TaggingPaths.
Context (E : env) (D : string) (page : Page) (w : world).
Context (b : Browser) (dp : dom_tree).
Hypothesis Hpage : pages w !! page = Some (b, dp).

Context (d0 : dom_tree).
Hypothesis Hserve : serve E "http://localhost:3000" = Some d0.

(** No element carries the test identifier of the chat input. *)
Lemma path_no_input :
  resolve E (ByTestId "multimodal-input") d0 = [] ->
  let rw := run_verification_with E D page w in
  let x := ElementResolutionError (ByTestId "multimodal-input") in
  fst rw = Raise x
  /\ calls (snd rw)
     = calls w ++ [ (Goto "http://localhost:3000", None);
                    (Fill (ByTestId "multimodal-input") "@", Some x) ]
  /\ fs (snd rw) = fs w.
Proof.
  intros Hres. cbv zeta. exec. unfold action_target. rewrite Hres.
  repeat exec_step. flatten_history. auto.
Qed.

Context (i : nat).
Hypothesis Hfill : action_target E Filling (ByTestId "multimodal-input") d0 = Ok i.

(** The fill is the second step that ends well, whatever follows. *)
Lemma path_filled :
  let rw := run_verification_with E D page w in
  exists h,
    calls (snd rw)
    = calls w ++ [ (Goto "http://localhost:3000", None);
                   (Fill (ByTestId "multimodal-input") "@", None) ] ++ h.
Proof.
  cbv zeta. exec. unfold action_target.
  repeat first [exec_step | split_step];
    eexists; flatten_history; reflexivity.
Qed.

(** The document list does not show. *)
Lemma path_list_not_visible :
  (forall k e,
      resolve E (ByTestId "document-tagging") (page_after_fill E i d0) = [(k, e)] ->
      el_visible e = false) ->
  let rw := run_verification_with E D page w in
  exists x,
    fst rw = Raise x
    /\ calls (snd rw)
       = calls w ++ [ (Goto "http://localhost:3000", None);
                      (Fill (ByTestId "multimodal-input") "@", None);
                      (ExpectVisible (ByTestId "document-tagging"), Some x) ]
    /\ fs (snd rw) = fs w.
Proof.
  intros Hnot. cbv zeta. exec. fold (page_after_fill E i d0).
  destruct (resolve E (ByTestId "document-tagging") (page_after_fill E i d0))
    as [|[k e] [|? ?]] eqn:Hres.
  - eexists. repeat exec_step. flatten_history. auto.
  - rewrite (Hnot k e eq_refl).
    eexists. repeat exec_step. flatten_history. auto.
  - eexists. repeat exec_step. flatten_history. auto.
Qed.

Context (k : nat) (e : element).
Hypothesis Hshown :
  resolve E (ByTestId "document-tagging") (page_after_fill E i d0) = [(k, e)].
Hypothesis Hvisible : el_visible e = true.

Context (j : nat).
Hypothesis Hclick : action_target E Clicking (ByText D) (page_after_fill E i d0) = Ok j.

Context (m : nat) (inp : element).
Hypothesis Hinput :
  resolve E (ByTestId "multimodal-input") (page_after_click E i j d0) = [(m, inp)].

(** The input does not hold the expected value after the click. *)
Lemma path_value_mismatch :
  el_value inp <> " @" +:+ D +:+ " " ->
  let rw := run_verification_with E D page w in
  let x := ValueAssertionError (ByTestId "multimodal-input")
                               (" @" +:+ D +:+ " ") (Some (el_value inp)) in
  fst rw = Raise x
  /\ calls (snd rw)
     = calls w ++ completed (take 4 (tagging_steps D))
               ++ [(ExpectValue (ByTestId "multimodal-input") (" @" +:+ D +:+ " "),
                    Some x)]
  /\ fs (snd rw) = fs w
  /\ "Input value is correct." ∉ drop (length (stderr w)) (stderr (snd rw)).
Proof.
  intros Hne. pose proof (bool_decide_eq_false_2 _ Hne) as Hdec.
  cbv zeta. unfold page_after_click, page_after_fill in *.
  exec. flatten_history. repeat split.
  rewrite drop_app_length.
  rewrite !elem_of_cons, elem_of_nil.
  intros Hin. decompose [or] Hin; try discriminate; assumption.
Qed.

(** The input holds the expected value after the click. *)
Lemma path_value_match :
  el_value inp = " @" +:+ D +:+ " " ->
  let rw := run_verification_with E D page w in
  (exists o,
      fst rw = match o with Some x => Raise x | None => Ok tt end
      /\ calls (snd rw)
         = calls w ++ completed (take 5 (tagging_steps D))
                   ++ [(Screenshot "jules-scratch/verification/verification.png" false, o)])
  /\ "Input value is correct." ∈ stderr (snd rw)
  /\ (can_write E "jules-scratch/verification/verification.png" = true ->
      fst rw = Ok tt
      /\ calls (snd rw) = calls w ++ completed (tagging_steps D)
      /\ fs (snd rw)
         = <["jules-scratch/verification/verification.png" :=
               render E false (page_after_click E i j d0)]> (fs w)).
Proof.
  intros Heq. pose proof (bool_decide_eq_true_2 _ Heq) as Hdec. clear Heq.
  cbv zeta. unfold page_after_click, page_after_fill in *. exec.
  destruct (can_write E _) eqn:Hw; repeat exec_step; flatten_history.
  - split; [exists None; auto|]. split; [|auto].
    apply elem_of_app. right. in_list.
  - split; [eexists (Some _); eauto|]. split; [|discriminate].
    apply elem_of_app. right. in_list.
Qed.

End TaggingPaths.

(** ** Histories, case by case *)

Lemma run_of_tagging_cases {A} d (r : result A) h :
  run_of (tagging_steps d) r h ->
  h = completed (tagging_steps d)
  \/ exists n c x, n < 6 /\ tagging_steps d !! n = Some c
                   /\ h = completed (take n (tagging_steps d)) ++ [(c, Some x)].
Proof.
  inversion 1 as [a|n c e Hn]; subst; [now left|right].
  exists n, c, e. split; [|auto]. apply lookup_lt_Some in Hn. exact Hn.
Qed.

Lemma run_of_tracker_cases {A} (r : result A) h :
  run_of tracker_steps r h ->
  h = completed tracker_steps
  \/ exists n c x, n < 5 /\ tracker_steps !! n = Some c
                   /\ h = completed (take n tracker_steps) ++ [(c, Some x)].
Proof.
  inversion 1 as [a|n c e Hn]; subst; [now left|right].
  exists n, c, e. split; [|auto]. apply lookup_lt_Some in Hn. exact Hn.
Qed.

(** A check on histories that computes holds of every run of the steps of
    [run_verification], framed by [before] and [after]. *)
Ltac by_cases_of_run cases :=
  destruct cases as [->|(n & c & x & Hlt & Hn & ->)];
  [ reflexivity
  | repeat (destruct n as [|n];
            [ cbn in Hn; injection Hn as <-; reflexivity | ]);
    exfalso; lia ].

Lemma tagging_history_check (P : history -> bool) r h :
  (forall d r' hb, @run_of unit (tagging_steps d) r' hb -> d = "Monet" ->
                   P (completed [Launch true; NewPage] ++ hb ++ [(Close, None)]) = true) ->
  P [(Launch true, Some LaunchError)] = true ->
  tagging_history r h -> P h = true.
Proof.
  intros Hs Hl. inversion 1 as [|r' hb Hrun]; subst; [assumption|].
  eapply Hs; eauto.
Qed.

Lemma tagging_acts_and_asserts r h :
  tagging_history r h -> acts_and_asserts_before_capture h = true.
Proof.
  apply (tagging_history_check acts_and_asserts_before_capture); [|reflexivity].
  intros d r' hb Hrun ->. by_cases_of_run (run_of_tagging_cases _ _ _ Hrun).
Qed.

Lemma tagging_captures_viewport r h :
  tagging_history r h ->
  captures_viewport_at "jules-scratch/verification/verification.png" h = true.
Proof.
  apply (tagging_history_check
           (captures_viewport_at "jules-scratch/verification/verification.png"));
    [|reflexivity].
  intros d r' hb Hrun ->. by_cases_of_run (run_of_tagging_cases _ _ _ Hrun).
Qed.

Lemma tagging_navigates r h :
  tagging_history r h -> navigates_only_to "http://localhost:3000" h = true.
Proof.
  apply (tagging_history_check (navigates_only_to "http://localhost:3000"));
    [|reflexivity].
  intros d r' hb Hrun ->. by_cases_of_run (run_of_tagging_cases _ _ _ Hrun).
Qed.

Lemma tracker_only_navigates_and_captures (r : result unit) h :
  run_of tracker_steps r h -> only_navigates_and_captures h = true.
Proof. intros Hrun. by_cases_of_run (run_of_tracker_cases _ _ Hrun). Qed.

Lemma tracker_captures_viewport (r : result unit) h :
  run_of tracker_steps r h ->
  captures_viewport_at "jules-scratch/verification/context_tracker.png" h = true.
Proof. intros Hrun. by_cases_of_run (run_of_tracker_cases _ _ Hrun). Qed.

Lemma tracker_navigates (r : result unit) h :
  run_of tracker_steps r h -> navigates_only_to "http://localhost:3000" h = true.
Proof. intros Hrun. by_cases_of_run (run_of_tracker_cases _ _ Hrun). Qed.

(** ** The context-tracker script along its successful path *)

Lemma verify_context_tracker_completes E w d0 :
  can_launch E true = true ->
  serve E "http://localhost:3000" = Some d0 ->
  can_write E "jules-scratch/verification/context_tracker.png" = true ->
  let out := verify_context_tracker E w in
  fst out = Ok tt
  /\ calls (snd out) = calls w ++ completed tracker_steps
  /\ fs (snd out)
     = <["jules-scratch/verification/context_tracker.png" := render E false d0]> (fs w).
Proof.
  intros Hl Hs Hw. cbv zeta. exec. flatten_history. auto.
Qed.

(** ** Running a script again on the disk the first run left *)

Lemma writes_once_again {A} path (m1 m2 : M A) w w2 :
  writes_once path m1 -> writes_once path m2 ->
  let out1 := m1 w in
  let out2 := m2 (with_disk (fs (snd out1)) w2) in
  delete path (fs (snd out1)) = delete path (fs w)
  /\ match fst out1 with
     | Ok _ => path ∈ dom (fs (snd out1))
               /\ dom (fs (snd out2)) = dom (fs (snd out1))
     | Raise _ => fs (snd out1) = fs w
     end
  /\ match fst out2 with
     | Ok _ => exists img, fs (snd out2) = <[path := img]> (fs (snd out1))
     | Raise _ => fs (snd out2) = fs (snd out1)
     end.
Proof.
  intros H1 H2. cbv zeta.
  specialize (H1 w). specialize (H2 (with_disk (fs (snd (m1 w))) w2)).
  cbn [with_disk fs] in H2. split_and!.
  - destruct (fst (m1 w)); [destruct H1 as [img ->]|now rewrite H1].
    apply delete_insert_eq.
  - destruct (fst (m1 w)); [|assumption]. destruct H1 as [img Himg].
    assert (path ∈ dom (fs (snd (m1 w)))) as Hin
        by (rewrite Himg, dom_insert_L; apply elem_of_union_l, elem_of_singleton;
            reflexivity).
    split; [assumption|].
    destruct (fst (m2 _)); [destruct H2 as [img2 ->]|now rewrite H2].
    rewrite dom_insert_L. apply subseteq_union_1_L, singleton_subseteq_l, Hin.
  - assumption.
Qed.

(** ** The fill *)

Lemma resolve_lookup E sel d i e :
  (i, e) ∈ resolve E sel d -> d !! i = Some e.
Proof.
  unfold resolve. intros Hin.
  apply list_elem_of_In, List.filter_In in Hin. destruct Hin as [Hin _].
  apply list_elem_of_In, elem_of_lookup_imap in Hin.
  destruct Hin as (i' & e' & Heq & Hl). now inversion Heq; subst.
Qed.

Lemma action_target_unique E a sel d i e :
  resolve E sel d = [(i, e)] -> actionable a e = true ->
  action_target E a sel d = Ok i.
Proof. intros Hres Hok. unfold action_target. now rewrite Hres, Hok. Qed.

Lemma set_value_lookup i value d e :
  d !! i = Some e ->
  set_value i value d !! i
  = Some (Element (el_test_id e) (el_text e) value (el_visible e) (el_enabled e)
                  (el_editable e) (el_stable e) (el_receives_events e)).
Proof. intros Hl. unfold set_value. now rewrite list_lookup_alter_eq, Hl. Qed.

Lemma locator_fill_sets_value E page value w b d i e :
  pages w !! page = Some (b, d) ->
  resolve E (ByTestId "multimodal-input") d = [(i, e)] ->
  actionable Filling e = true ->
  let out := locator_fill E (get_by_test_id page "multimodal-input") value w in
  fst out = Ok tt
  /\ pages (snd out) !! page = Some (b, on_input E i (set_value i value d))
  /\ el_value <$> (set_value i value d !! i) = Some value.
Proof.
  intros Hp Hres Hok. cbv zeta.
  pose proof (action_target_unique _ _ _ _ _ _ Hres Hok) as Ht.
  exec. split_and!; [reflexivity..|].
  erewrite set_value_lookup; [reflexivity|].
  apply (resolve_lookup E (ByTestId "multimodal-input")).
  rewrite Hres. constructor.
Qed.

(** ** More paths of [run_verification] *)

Section MorePaths.
Context (E : env) (D : string) (page : Page) (w : world).
Context (b : Browser) (dp : dom_tree).
Hypothesis Hpage : pages w !! page = Some (b, dp).

Lemma path_no_server :
  serve E "http://localhost:3000" = None ->
  let rw := run_verification_with E D page w in
  let x := NavigationError "http://localhost:3000" in
  fst rw = Raise x
  /\ calls (snd rw) = calls w ++ [(Goto "http://localhost:3000", Some x)]
  /\ fs (snd rw) = fs w
  /\ stderr (snd rw)
     = stderr w ++ [ "Starting verification script...";
                     "Navigating to http://localhost:3000..." ].
Proof. intros Hs. cbv zeta. exec. flatten_history. auto. Qed.

Context (d0 : dom_tree).
Hypothesis Hserve : serve E "http://localhost:3000" = Some d0.
Context (i : nat).
Hypothesis Hfill : action_target E Filling (ByTestId "multimodal-input") d0 = Ok i.
Context (k : nat) (e : element).
Hypothesis Hshown :
  resolve E (ByTestId "document-tagging") (page_after_fill E i d0) = [(k, e)].
Hypothesis Hvisible : el_visible e = true.

Lemma path_no_entry :
  resolve E (ByText D) (page_after_fill E i d0) = [] ->
  let rw := run_verification_with E D page w in
  let x := ElementResolutionError (ByText D) in
  fst rw = Raise x
  /\ calls (snd rw)
     = calls w ++ completed (take 3 (tagging_steps D)) ++ [(Click (ByText D), Some x)]
  /\ fs (snd rw) = fs w
  /\ last (stderr (snd rw)) = Some ("Clicking on '" +:+ D +:+ "'...").
Proof.
  intros Hres. cbv zeta. unfold page_after_fill in *. exec.
  unfold action_target. rewrite Hres. repeat exec_step. flatten_history.
  split_and!; try reflexivity. now rewrite last_app.
Qed.
End MorePaths.

(** With no server behind the URL the context-tracker script raises at the
    navigation: its [browser.close()] is not reached, and the browser ends
    with the [with] block. *)
Example verify_context_tracker_no_server :
  let out := verify_context_tracker no_server fresh_world in
  fst out = Raise (NavigationError "http://localhost:3000")
  /\ calls (snd out)
     = [ (Launch true, None); (NewPage, None);
         (Goto "http://localhost:3000", Some (NavigationError "http://localhost:3000")) ]
  /\ browsers (snd out) = ∅.
Proof. cbv zeta. split_and!; vm_compute; reflexivity. Qed.

(** ** Browsers: which commands open and close them *)



Lemma keeps_browsers_print s : keeps_browsers (print s).
Proof. intros w. reflexivity. Qed.

Ltac keeps_browsers_command :=
  intros w; exec_unfold; repeat first [progress reduce_world | split_step];
  reflexivity.

Section DriverBrowsers.
Context (E : env).

Lemma keeps_browsers_page_goto page url : keeps_browsers (page_goto E page url).
Proof. keeps_browsers_command. Qed.

Lemma keeps_browsers_locator_fill l value : keeps_browsers (locator_fill E l value).
Proof. keeps_browsers_command. Qed.

Lemma keeps_browsers_locator_click l : keeps_browsers (locator_click E l).
Proof. keeps_browsers_command. Qed.

Lemma keeps_browsers_expect_to_be_visible l :
  keeps_browsers (expect_to_be_visible E l).
Proof. keeps_browsers_command. Qed.

Lemma keeps_browsers_expect_to_have_value l expected :
  keeps_browsers (expect_to_have_value E l expected).
Proof. keeps_browsers_command. Qed.

Lemma keeps_browsers_page_screenshot page path full_page :
  keeps_browsers (page_screenshot E page path full_page).
Proof. keeps_browsers_command. Qed.

Hint Resolve keeps_browsers_print keeps_browsers_page_goto
  keeps_browsers_locator_fill keeps_browsers_locator_click
  keeps_browsers_expect_to_be_visible keeps_browsers_expect_to_have_value
  keeps_browsers_page_screenshot : script.



End DriverBrowsers.


(** ** Paths: the navigation and the fill *)

Section NavigationPaths.
Context (E : env) (D : string) (page : Page) (w : world).
Context (b : Browser) (dp : dom_tree).
Hypothesis Hpage : pages w !! page = Some (b, dp).
Context (d0 : dom_tree).
Hypothesis Hserve : serve E "http://localhost:3000" = Some d0.

(** The navigation is the first step that ends well, whatever follows. *)
Lemma path_navigated :
  let rw := run_verification_with E D page w in
  exists h,
    calls (snd rw) = calls w ++ [(Goto "http://localhost:3000", None)] ++ h.
Proof.
  cbv zeta. exec.
  repeat first [exec_step | split_step];
    eexists; flatten_history; reflexivity.
Qed.

(** The fill raises. *)
Lemma path_fill_raises x :
  action_target E Filling (ByTestId "multimodal-input") d0 = Raise x ->
  let rw := run_verification_with E D page w in
  fst rw = Raise x
  /\ calls (snd rw)
     = calls w ++ [ (Goto "http://localhost:3000", None);
                    (Fill (ByTestId "multimodal-input") "@", Some x) ]
  /\ fs (snd rw) = fs w.
Proof. intros Hres. cbv zeta. exec. flatten_history. auto. Qed.
End NavigationPaths.

Lemma action_target_not_actionable E a sel d i e :
  resolve E sel d = [(i, e)] -> actionable a e = false ->
  action_target E a sel d = Raise (ElementResolutionError sel).
Proof. intros Hres Hno. unfold action_target. now rewrite Hres, Hno. Qed.

(** The context-tracker script navigates as soon as the session is open. *)
Lemma verify_context_tracker_navigates E w :
  can_launch E true = true ->
  exists o rest,
    calls (snd (verify_context_tracker E w))
    = calls w ++ [ (Launch true, None); (NewPage, None);
                   (Goto "http://localhost:3000", o) ] ++ rest
    /\ (o = None <-> is_Some (serve E "http://localhost:3000")).
Proof.
  intros Hl.
  destruct (serve E "http://localhost:3000") as [d0|] eqn:Hs;
    [destruct (can_write E "jules-scratch/verification/context_tracker.png") eqn:Hw|];
    exec; flatten_history; eexists _, _; (split; [reflexivity|]).
  - split; eauto.
  - split; eauto.
  - split; [discriminate|]. intros [? ?]. discriminate.
Qed.

Lemma verify_document_tagging_navigates E w :
  can_launch E true = true ->
  exists o rest,
    calls (snd (verify_document_tagging E w))
    = calls w ++ [ (Launch true, None); (NewPage, None);
                   (Goto "http://localhost:3000", o) ] ++ rest
    /\ (o = None <-> is_Some (serve E "http://localhost:3000")).
Proof.
  intros Hl.
  destruct (verify_document_tagging_launched E w Hl) as (_ & Hc & _).
  unfold run_verification in Hc.
  destruct (serve E "http://localhost:3000") as [d0|] eqn:Hs.
  - destruct (path_navigated E "Monet" _ _ _ _ (session_page_open true w) d0 Hs)
      as (h & Pc).
    exists None, (h ++ [(Close, None)]). rewrite Hc, Pc. cbn [session_world calls].
    flatten_history. split; [reflexivity|]. split; eauto.
  - destruct (path_no_server E "Monet" _ _ _ _ (session_page_open true w) Hs)
      as (_ & Pc & _).
    eexists _, [(Close, None)]. rewrite Hc, Pc. cbn [session_world calls].
    flatten_history. split; [reflexivity|].
    split; [discriminate|]. intros [? ?]. discriminate.
Qed.

(** ** What comes before the screenshot *)

Lemma tagging_before_capture r h :
  tagging_history r h ->
  before_capture h = None \/ before_capture h = Some tagging_checks.
Proof.
  inversion 1 as [|r' hb Hrun]; subst; [now left|].
  destruct (run_of_tagging_cases _ _ _ Hrun)
    as [->|(n & c & x & Hlt & Hn & ->)]; [now right|].
  do 6 (destruct n as [|n];
        [cbn in Hn; injection Hn as <-; first [now left | now right]|]).
  exfalso. lia.
Qed.

(** A program that reads the environment of the process depends on it. *)
Example os_environ_get_is_not_oblivious : ~ oblivious (os_environ_get "BASE_URL").
Proof.
  intros H.
  specialize (H [] {["BASE_URL" := "http://localhost:8000"]} fresh_world).
  unfold os_environ_get in H. cbn [with_config environ fst snd] in H.
  rewrite lookup_singleton_eq in H. unfold fresh_world in H.
  cbn [environ] in H. rewrite lookup_empty in H. discriminate H.
Qed.

(** * The claims *)

(** C1. In the tagging script, once the element with the text "Monet" is
    clicked, the value of the chat input is compared with the literal
    " @Monet ", spaces included.  When the value is that literal the assertion
    passes and the script goes on; any other value raises the assertion error
    carrying the expected and the actual value, nothing is captured, the
    browser is closed and the process ends with a non-zero status. *)
Theorem tagging_value_assertion E w d0 i k e j m inp :
  can_launch E true = true ->
  serve E "http://localhost:3000" = Some d0 ->
  action_target E Filling (ByTestId "multimodal-input") d0 = Ok i ->
  resolve E (ByTestId "document-tagging") (page_after_fill E i d0) = [(k, e)] ->
  el_visible e = true ->
  action_target E Clicking (ByText "Monet") (page_after_fill E i d0) = Ok j ->
  resolve E (ByTestId "multimodal-input") (page_after_click E i j d0) = [(m, inp)] ->
  let out := verify_document_tagging E w in
  let before :=
    completed [ Launch true; NewPage; Goto "http://localhost:3000";
                Fill (ByTestId "multimodal-input") "@";
                ExpectVisible (ByTestId "document-tagging");
                Click (ByText "Monet") ] in
  (el_value inp = " @Monet " ->
   (exists o,
       calls (snd out)
       = calls w ++ before
           ++ [ (ExpectValue (ByTestId "multimodal-input") " @Monet ", None);
                (Screenshot "jules-scratch/verification/verification.png" false, o);
                (Close, None) ])
   /\ "Input value is correct." ∈ stderr (snd out))
  /\ (el_value inp <> " @Monet " ->
      let x := ValueAssertionError (ByTestId "multimodal-input") " @Monet "
                                   (Some (el_value inp)) in
      fst out = Raise x
      /\ exit_status (fst out) = 1%Z
      /\ calls (snd out)
         = calls w ++ before
             ++ [ (ExpectValue (ByTestId "multimodal-input") " @Monet ", Some x);
                  (Close, None) ]
      /\ fs (snd out) = fs w).
Proof.
  intros Hl Hs Hf Hshown Hvis Hclick Hinput. cbv zeta.
  destruct (verify_document_tagging_launched E w Hl) as (Hr & Hc & Hfs & Hse & _).
  unfold run_verification in *. split.
  - intros Heq.
    destruct (path_value_match E "Monet" _ _ _ _ (session_page_open true w)
                d0 Hs i Hf k e Hshown Hvis j Hclick m inp Hinput Heq)
      as ((o & _ & Pc) & Pse & _).
    split; [exists o|].
    + rewrite Hc, Pc. cbn [session_world calls]. flatten_history. reflexivity.
    + now rewrite Hse.
  - intros Hne.
    destruct (path_value_mismatch E "Monet" _ _ _ _ (session_page_open true w)
                d0 Hs i Hf k e Hshown Hvis j Hclick m inp Hinput Hne)
      as (Pr & Pc & Pfs & _).
    rewrite Hr, Hc, Hfs, Pr, Pc, Pfs. cbn [session_world calls fs].
    flatten_history. auto.
Qed.

Lemma tagging_value_assertion_witness :
  let out := verify_document_tagging chat_app_no_trailing_space fresh_world in
  fst out = Raise (ValueAssertionError (ByTestId "multimodal-input") " @Monet "
                                       (Some " @Monet"))
  /\ exit_status (fst out) = 1%Z
  /\ fs (snd out) = ∅.
Proof.
  destruct (tagging_value_assertion chat_app_no_trailing_space fresh_world
              [stub_input ""] 0 1
              stub_container 2 0
              (stub_input " @Monet")
              eq_refl eq_refl eq_refl eq_refl eq_refl eq_refl eq_refl)
    as [_ H].
  destruct H as (Hr & Hx & _ & Hfs); [discriminate|].
  exact (conj Hr (conj Hx Hfs)).
Defined.


(** C3. The tagging script sends its six steps in the order of the source and
    a step that raises ends the steps: the history of a run is the session,
    the steps up to the first failure, and the close.  When the element with
    the test identifier "document-tagging" does not show after the fill, the
    run raises at the third step; no click, no comparison of the value and no
    screenshot follow, and the process ends with a non-zero status. *)
Theorem tagging_steps_in_order E w :
  let out := verify_document_tagging E w in
  (exists h, calls (snd out) = calls w ++ h /\ tagging_history (fst out) h)
  /\ (forall d0 i,
         can_launch E true = true ->
         serve E "http://localhost:3000" = Some d0 ->
         action_target E Filling (ByTestId "multimodal-input") d0 = Ok i ->
         (forall k e,
             resolve E (ByTestId "document-tagging") (page_after_fill E i d0)
             = [(k, e)] ->
             el_visible e = false) ->
         exists x,
           fst out = Raise x
           /\ exit_status (fst out) = 1%Z
           /\ calls (snd out)
              = calls w ++ [ (Launch true, None); (NewPage, None);
                             (Goto "http://localhost:3000", None);
                             (Fill (ByTestId "multimodal-input") "@", None);
                             (ExpectVisible (ByTestId "document-tagging"), Some x);
                             (Close, None) ]
           /\ fs (snd out) = fs w).
Proof.
  cbv zeta. split; [apply verify_document_tagging_history|].
  intros d0 i Hl Hs Hf Hnot.
  destruct (verify_document_tagging_launched E w Hl) as (Hr & Hc & Hfs & _).
  destruct (path_list_not_visible E "Monet" _ _ _ _ (session_page_open true w)
              d0 Hs i Hf Hnot) as (x & Pr & Pc & Pfs).
  unfold run_verification in *. exists x.
  rewrite Hr, Hc, Hfs, Pr, Pc, Pfs. cbn [session_world calls fs].
  flatten_history. auto.
Qed.

Lemma tagging_steps_in_order_witness :
  let out := verify_document_tagging chat_app_no_list fresh_world in
  exists x,
    fst out = Raise x
    /\ exit_status (fst out) = 1%Z
    /\ calls (snd out)
       = [ (Launch true, None); (NewPage, None);
           (Goto "http://localhost:3000", None);
           (Fill (ByTestId "multimodal-input") "@", None);
           (ExpectVisible (ByTestId "document-tagging"), Some x);
           (Close, None) ]
    /\ fs (snd out) = ∅.
Proof.
  refine (proj2 (tagging_steps_in_order chat_app_no_list fresh_world)
                [stub_input ""] 0 eq_refl eq_refl eq_refl _).
  intros k e H. discriminate H.
Defined.

(** C4, as the specification states it, fails: the context-tracker script
    saves its screenshot having performed no UI action and made no assertion. *)
Lemma context_tracker_asserts_nothing :
  calls (snd (verify_context_tracker chat_app fresh_world))
  = [ (Launch true, None); (NewPage, None);
      (Goto "http://localhost:3000", None);
      (Screenshot "jules-scratch/verification/context_tracker.png" false, None);
      (Close, None) ]
  /\ acts_and_asserts_before_capture
       (calls (snd (verify_context_tracker chat_app fresh_world))) = false.
Proof. split; vm_compute; reflexivity. Qed.

(** C4, amended.  The tagging script fills the input, asserts that the
    document list shows, clicks the entry and asserts the value of the input,
    each ended well and in this order, before it takes its screenshot: a run
    that takes a screenshot has exactly the session and these five steps
    before it, and on an application that behaves as the script expects the
    run is the whole script.  The context-tracker script only navigates and
    captures: no run of it has a UI action or an assertion, and it completes
    on any page that loads. *)
Theorem only_tagging_script_asserts E w :
  let tag := verify_document_tagging E w in
  let trk := verify_context_tracker E w in
  (exists h,
      calls (snd tag) = calls w ++ h
      /\ acts_and_asserts_before_capture h = true
      /\ (before_capture h = None \/ before_capture h = Some tagging_checks))
  /\ (exists h,
         calls (snd trk) = calls w ++ h
         /\ only_navigates_and_captures h = true)
  /\ (forall d0 i k e j m inp,
         can_launch E true = true ->
         serve E "http://localhost:3000" = Some d0 ->
         action_target E Filling (ByTestId "multimodal-input") d0 = Ok i ->
         resolve E (ByTestId "document-tagging") (page_after_fill E i d0) = [(k, e)] ->
         el_visible e = true ->
         action_target E Clicking (ByText "Monet") (page_after_fill E i d0) = Ok j ->
         resolve E (ByTestId "multimodal-input") (page_after_click E i j d0)
         = [(m, inp)] ->
         el_value inp = " @Monet " ->
         can_write E "jules-scratch/verification/verification.png" = true ->
         calls (snd tag) = calls w ++ completed tagging_script_steps)
  /\ (forall d0,
         can_launch E true = true ->
         serve E "http://localhost:3000" = Some d0 ->
         can_write E "jules-scratch/verification/context_tracker.png" = true ->
         calls (snd trk) = calls w ++ completed tracker_steps).
Proof.
  cbv zeta. split_and!.
  - destruct (verify_document_tagging_history E w) as (h & Hc & Hh).
    exists h. split_and!; [assumption| |].
    + eapply tagging_acts_and_asserts; eauto.
    + eapply tagging_before_capture; eauto.
  - destruct (emits_verify_context_tracker E w) as (h & Hc & Hh).
    exists h. split; [assumption|].
    eapply tracker_only_navigates_and_captures; eauto.
  - intros d0 i k e j m inp Hl Hs Hf Hshown Hvis Hclick Hinput Heq Hw.
    destruct (verify_document_tagging_launched E w Hl) as (_ & Hc & _).
    destruct (path_value_match E "Monet" _ _ _ _ (session_page_open true w)
                d0 Hs i Hf k e Hshown Hvis j Hclick m inp Hinput Heq)
      as (_ & _ & P).
    destruct (P Hw) as (_ & Pc & _).
    unfold run_verification in Hc. rewrite Hc, Pc.
    cbn [session_world calls]. flatten_history. reflexivity.
  - intros d0 Hl Hs Hw.
    now destruct (verify_context_tracker_completes E w d0 Hl Hs Hw) as (_ & ? & _).
Qed.

Lemma only_tagging_script_asserts_witness :
  calls (snd (verify_document_tagging chat_app fresh_world))
  = completed tagging_script_steps
  /\ before_capture (calls (snd (verify_document_tagging chat_app fresh_world)))
     = Some tagging_checks
  /\ calls (snd (verify_context_tracker chat_app fresh_world))
     = completed tracker_steps.
Proof.
  destruct (only_tagging_script_asserts chat_app fresh_world)
    as (_ & _ & Htag & Htrk).
  pose proof (Htag [stub_input ""] 0 1 stub_container 2 0 (stub_input " @Monet ")
                eq_refl eq_refl eq_refl eq_refl eq_refl eq_refl eq_refl
                eq_refl eq_refl) as Hc.
  split_and!.
  - exact Hc.
  - rewrite Hc. reflexivity.
  - exact (Htrk [stub_input ""] eq_refl eq_refl eq_refl).
Defined.

(** C5, as the specification states it, fails: the screenshot of the
    context-tracker script is taken without [full_page], and the file holds
    the picture of the viewport, not that of the full page. *)
Lemma context_tracker_screenshot_not_full_page :
  let out := verify_context_tracker chat_app fresh_world in
  captures_full_page (calls (snd out)) = false
  /\ fs (snd out) !! "jules-scratch/verification/context_tracker.png"
     = Some (render chat_app false [stub_input ""])
  /\ render chat_app false [stub_input ""] <> render chat_app true [stub_input ""].
Proof. cbv zeta. split; [|split]; vm_compute; [reflexivity|reflexivity|discriminate]. Qed.

(** C5, amended.  Every screenshot either script takes is the driver's
    default one, of the viewport ([full_page] is not passed), and goes to the
    fixed path of the script; when the script completes, the file at that path
    holds the viewport picture of the page as it then is. *)
Theorem screenshots_are_of_the_viewport E w :
  let tag := verify_document_tagging E w in
  let trk := verify_context_tracker E w in
  (exists h,
      calls (snd tag) = calls w ++ h
      /\ captures_viewport_at "jules-scratch/verification/verification.png" h = true)
  /\ (exists h,
         calls (snd trk) = calls w ++ h
         /\ captures_viewport_at "jules-scratch/verification/context_tracker.png" h
            = true)
  /\ (forall d0,
         can_launch E true = true ->
         serve E "http://localhost:3000" = Some d0 ->
         can_write E "jules-scratch/verification/context_tracker.png" = true ->
         fs (snd trk)
         = <["jules-scratch/verification/context_tracker.png" :=
               render E false d0]> (fs w))
  /\ (forall d0 i k e j m inp,
         can_launch E true = true ->
         serve E "http://localhost:3000" = Some d0 ->
         action_target E Filling (ByTestId "multimodal-input") d0 = Ok i ->
         resolve E (ByTestId "document-tagging") (page_after_fill E i d0) = [(k, e)] ->
         el_visible e = true ->
         action_target E Clicking (ByText "Monet") (page_after_fill E i d0) = Ok j ->
         resolve E (ByTestId "multimodal-input") (page_after_click E i j d0)
         = [(m, inp)] ->
         el_value inp = " @Monet " ->
         can_write E "jules-scratch/verification/verification.png" = true ->
         fs (snd tag)
         = <["jules-scratch/verification/verification.png" :=
               render E false (page_after_click E i j d0)]> (fs w)).
Proof.
  cbv zeta. split_and!.
  - destruct (verify_document_tagging_history E w) as (h & Hc & Hh).
    exists h. split; [assumption|]. eapply tagging_captures_viewport; eauto.
  - destruct (emits_verify_context_tracker E w) as (h & Hc & Hh).
    exists h. split; [assumption|]. eapply tracker_captures_viewport; eauto.
  - intros d0 Hl Hs Hw.
    now destruct (verify_context_tracker_completes E w d0 Hl Hs Hw) as (_ & _ & ?).
  - intros d0 i k e j m inp Hl Hs Hf Hshown Hvis Hclick Hinput Heq Hw.
    destruct (verify_document_tagging_launched E w Hl) as (_ & _ & Hfs & _).
    destruct (path_value_match E "Monet" _ _ _ _ (session_page_open true w)
                d0 Hs i Hf k e Hshown Hvis j Hclick m inp Hinput Heq)
      as (_ & _ & P).
    destruct (P Hw) as (_ & _ & Pfs).
    unfold run_verification in Hfs. now rewrite Hfs, Pfs.
Qed.

Lemma screenshots_are_of_the_viewport_witness :
  fs (snd (verify_context_tracker chat_app fresh_world))
  = <["jules-scratch/verification/context_tracker.png" :=
        render chat_app false [stub_input ""]]> ∅
  /\ fs (snd (verify_document_tagging chat_app fresh_world))
     = <["jules-scratch/verification/verification.png" :=
           render chat_app false [stub_input " @Monet "]]> ∅.
Proof.
  destruct (screenshots_are_of_the_viewport chat_app fresh_world)
    as (_ & _ & Htrk & Htag).
  split.
  - exact (Htrk [stub_input ""] eq_refl eq_refl eq_refl).
  - exact (Htag [stub_input ""] 0 1
                stub_container 2 0
                (stub_input " @Monet ")
                eq_refl eq_refl eq_refl eq_refl eq_refl eq_refl eq_refl
                eq_refl eq_refl).
Defined.

(** C6. Both scripts navigate to "http://localhost:3000": once the browser
    is launched and the page is open, the first thing either script does with
    the page is the navigation to that URL, which ends well exactly when the
    URL loads.  No run navigates anywhere else; every command of every run is
    one of the fixed commands of the script, with its literal URL, selectors
    and path; and neither script looks at the arguments or the environment of
    the process: with other arguments and another environment the run is the
    same. *)
Theorem url_is_hardcoded E w a e :
  let tag := verify_document_tagging E w in
  let trk := verify_context_tracker E w in
  (exists h,
      calls (snd tag) = calls w ++ h
      /\ h.*1 `sublist_of` tagging_script_steps
      /\ navigates_only_to "http://localhost:3000" h = true)
  /\ (exists h,
         calls (snd trk) = calls w ++ h
         /\ h.*1 `sublist_of` tracker_steps
         /\ navigates_only_to "http://localhost:3000" h = true)
  /\ verify_document_tagging E (with_config a e w)
     = (fst tag, with_config a e (snd tag))
  /\ verify_context_tracker E (with_config a e w)
     = (fst trk, with_config a e (snd trk))
  /\ (can_launch E true = true ->
      (exists o rest,
          calls (snd tag)
          = calls w ++ [ (Launch true, None); (NewPage, None);
                         (Goto "http://localhost:3000", o) ] ++ rest
          /\ (o = None <-> is_Some (serve E "http://localhost:3000")))
      /\ (exists o rest,
             calls (snd trk)
             = calls w ++ [ (Launch true, None); (NewPage, None);
                            (Goto "http://localhost:3000", o) ] ++ rest
             /\ (o = None <-> is_Some (serve E "http://localhost:3000")))).
Proof.
  cbv zeta. split_and!.
  - destruct (verify_document_tagging_history E w) as (h & Hc & Hh).
    exists h. split_and!; [assumption| |].
    + eapply tagging_history_sublist; eauto.
    + eapply tagging_navigates; eauto.
  - destruct (emits_verify_context_tracker E w) as (h & Hc & Hh).
    exists h. split_and!; [assumption| |].
    + destruct (run_of_prefix _ _ _ Hh) as [n ->]. apply sublist_take.
    + eapply tracker_navigates; eauto.
  - apply oblivious_verify_document_tagging.
  - apply oblivious_verify_context_tracker.
  - intros Hl. split.
    + now apply verify_document_tagging_navigates.
    + now apply verify_context_tracker_navigates.
Qed.

Lemma url_is_hardcoded_witness :
  (exists rest,
      calls (snd (verify_document_tagging chat_app fresh_world))
      = [ (Launch true, None); (NewPage, None);
          (Goto "http://localhost:3000", None) ] ++ rest)
  /\ (exists rest,
         calls (snd (verify_context_tracker chat_app fresh_world))
         = [ (Launch true, None); (NewPage, None);
             (Goto "http://localhost:3000", None) ] ++ rest).
Proof.
  destruct (url_is_hardcoded chat_app fresh_world [] ∅) as (_ & _ & _ & _ & H).
  destruct (H eq_refl) as ((o1 & r1 & Hc1 & Ho1) & (o2 & r2 & Hc2 & Ho2)).
  assert (is_Some (serve chat_app "http://localhost:3000")) as Hs
      by (eexists; reflexivity).
  apply Ho1 in Hs as Hn1. apply Ho2 in Hs as Hn2. subst o1 o2.
  split; [exists r1; exact Hc1 | exists r2; exact Hc2].
Defined.

(** C7. Each script writes its screenshot to its fixed path and writes
    nothing else.  When the browser launches, the page loads (and, for the
    tagging script, the application behaves as the script expects) and the
    path is writable, the run puts the picture at the path, over whatever file
    was there, and a second run against the same application, from any process
    on the disk the first left, leaves the disk exactly as the first did.  In
    every run every other file is as it was; a run that raises writes nothing;
    after a run that completed, a second run against any application leaves
    the same set of files. *)
Theorem screenshot_overwritten_in_place E E' w w2 :
  let tag_path := "jules-scratch/verification/verification.png" in
  let trk_path := "jules-scratch/verification/context_tracker.png" in
  let tag1 := verify_document_tagging E w in
  let tag2 := verify_document_tagging E' (with_disk (fs (snd tag1)) w2) in
  let trk1 := verify_context_tracker E w in
  let trk2 := verify_context_tracker E' (with_disk (fs (snd trk1)) w2) in
  (delete tag_path (fs (snd tag1)) = delete tag_path (fs w)
   /\ match fst tag1 with
      | Ok _ => tag_path ∈ dom (fs (snd tag1))
                /\ dom (fs (snd tag2)) = dom (fs (snd tag1))
      | Raise _ => fs (snd tag1) = fs w
      end
   /\ match fst tag2 with
      | Ok _ => exists img, fs (snd tag2) = <[tag_path := img]> (fs (snd tag1))
      | Raise _ => fs (snd tag2) = fs (snd tag1)
      end)
  /\ (delete trk_path (fs (snd trk1)) = delete trk_path (fs w)
      /\ match fst trk1 with
         | Ok _ => trk_path ∈ dom (fs (snd trk1))
                   /\ dom (fs (snd trk2)) = dom (fs (snd trk1))
         | Raise _ => fs (snd trk1) = fs w
         end
      /\ match fst trk2 with
         | Ok _ => exists img, fs (snd trk2) = <[trk_path := img]> (fs (snd trk1))
         | Raise _ => fs (snd trk2) = fs (snd trk1)
         end)
  /\ (forall d0,
         can_launch E true = true ->
         serve E "http://localhost:3000" = Some d0 ->
         can_write E trk_path = true ->
         fst trk1 = Ok tt
         /\ fs (snd trk1) = <[trk_path := render E false d0]> (fs w)
         /\ fs (snd (verify_context_tracker E (with_disk (fs (snd trk1)) w2)))
            = fs (snd trk1))
  /\ (forall d0 i k e j m inp,
         can_launch E true = true ->
         serve E "http://localhost:3000" = Some d0 ->
         action_target E Filling (ByTestId "multimodal-input") d0 = Ok i ->
         resolve E (ByTestId "document-tagging") (page_after_fill E i d0) = [(k, e)] ->
         el_visible e = true ->
         action_target E Clicking (ByText "Monet") (page_after_fill E i d0) = Ok j ->
         resolve E (ByTestId "multimodal-input") (page_after_click E i j d0)
         = [(m, inp)] ->
         el_value inp = " @Monet " ->
         can_write E tag_path = true ->
         fst tag1 = Ok tt
         /\ fs (snd tag1)
            = <[tag_path := render E false (page_after_click E i j d0)]> (fs w)
         /\ fs (snd (verify_document_tagging E (with_disk (fs (snd tag1)) w2)))
            = fs (snd tag1)).
Proof.
  cbv zeta. split; [|split; [|split]].
  - apply (writes_once_again _ (verify_document_tagging E)
                             (verify_document_tagging E'));
      apply writes_once_verify_document_tagging.
  - apply (writes_once_again _ (verify_context_tracker E)
                             (verify_context_tracker E'));
      apply writes_once_verify_context_tracker.
  - intros d0 Hl Hs Hw.
    destruct (verify_context_tracker_completes E w d0 Hl Hs Hw) as (Hr & _ & Hf).
    split_and!; [assumption..|].
    destruct (verify_context_tracker_completes E
                (with_disk (fs (snd (verify_context_tracker E w))) w2)
                d0 Hl Hs Hw) as (_ & _ & Hf2).
    rewrite Hf2. cbn [with_disk fs]. rewrite Hf. apply insert_insert_eq.
  - intros d0 i k e j m inp Hl Hs Hf Hshown Hvis Hclick Hinput Heq Hw.
    assert (forall u,
               fst (verify_document_tagging E u) = Ok tt
               /\ fs (snd (verify_document_tagging E u))
                  = <["jules-scratch/verification/verification.png" :=
                        render E false (page_after_click E i j d0)]> (fs u))
      as Hrun.
    { intros u.
      destruct (verify_document_tagging_launched E u Hl) as (Hr & _ & Hfs & _).
      destruct (path_value_match E "Monet" _ _ _ _ (session_page_open true u)
                  d0 Hs i Hf k e Hshown Hvis j Hclick m inp Hinput Heq)
        as (_ & _ & P).
      destruct (P Hw) as (Pr & _ & Pfs).
      unfold run_verification in *. now rewrite Hr, Hfs, Pr, Pfs. }
    destruct (Hrun w) as (Hr1 & Hf1).
    split_and!; [assumption..|].
    destruct (Hrun (with_disk (fs (snd (verify_document_tagging E w))) w2))
      as (_ & Hf2).
    rewrite Hf2. cbn [with_disk fs]. rewrite Hf1. apply insert_insert_eq.
Qed.

Lemma screenshot_overwritten_in_place_witness :
  let old := World [] ∅ {["jules-scratch/verification/context_tracker.png" := []]}
                   [] false ∅ ∅ [] in
  let trk1 := verify_context_tracker chat_app old in
  let trk2 := verify_context_tracker chat_app (with_disk (fs (snd trk1)) fresh_world) in
  let tag1 := verify_document_tagging chat_app fresh_world in
  let tag2 := verify_document_tagging chat_app (with_disk (fs (snd tag1)) fresh_world) in
  (fst trk1 = Ok tt
   /\ fs (snd trk1)
      = <["jules-scratch/verification/context_tracker.png" :=
            render chat_app false [stub_input ""]]>
          {["jules-scratch/verification/context_tracker.png" := []]}
   /\ fs (snd trk2) = fs (snd trk1))
  /\ (fst tag1 = Ok tt
      /\ fs (snd tag1)
         = <["jules-scratch/verification/verification.png" :=
               render chat_app false [stub_input " @Monet "]]> ∅
      /\ fs (snd tag2) = fs (snd tag1)).
Proof.
  cbv zeta. split.
  - destruct (screenshot_overwritten_in_place chat_app chat_app
                (World [] ∅ {["jules-scratch/verification/context_tracker.png" := []]}
                       [] false ∅ ∅ [])
                fresh_world) as (_ & _ & Htrk & _).
    exact (Htrk [stub_input ""] eq_refl eq_refl eq_refl).
  - destruct (screenshot_overwritten_in_place chat_app chat_app fresh_world
                fresh_world) as (_ & _ & _ & Htag).
    exact (Htag [stub_input ""] 0 1 stub_container 2 0 (stub_input " @Monet ")
                eq_refl eq_refl eq_refl eq_refl eq_refl eq_refl eq_refl
                eq_refl eq_refl).
Defined.

(** C8. Neither script catches an exception.  In every run, a step that
    raised is the last step but for the close of the tagging script's
    [finally] block, its exception is the one the script ends with, and the
    status of the process is then 1; an exception the script ends with is that
    of a step; the status is 0 exactly when every step of the script ended
    well; no step occurs twice in a run; and the browser is gone at the end. *)
Theorem failures_propagate E w :
  let tag := verify_document_tagging E w in
  let trk := verify_context_tracker E w in
  (exists h,
      calls (snd tag) = calls w ++ h
      /\ tagging_history (fst tag) h
      /\ (forall c x, (c, Some x) ∈ h ->
                      fst tag = Raise x /\ exit_status (fst tag) = 1%Z)
      /\ (forall x, fst tag = Raise x -> exists c, (c, Some x) ∈ h)
      /\ (exit_status (fst tag) = 0%Z <->
          h = completed tagging_script_steps)
      /\ NoDup h.*1
      /\ browsers (snd tag) = ∅)
  /\ (exists h,
         calls (snd trk) = calls w ++ h
         /\ run_of tracker_steps (fst trk) h
         /\ (forall c x, (c, Some x) ∈ h ->
                         fst trk = Raise x /\ exit_status (fst trk) = 1%Z)
         /\ (forall x, fst trk = Raise x -> exists c, (c, Some x) ∈ h)
         /\ (exit_status (fst trk) = 0%Z <-> h = completed tracker_steps)
         /\ NoDup h.*1
         /\ browsers (snd trk) = ∅).
Proof.
  cbv zeta. split.
  - destruct (verify_document_tagging_history E w) as (h & Hc & Hh).
    exists h. split_and!; try assumption.
    + intros c x Hin. rewrite (tagging_history_failure _ _ _ _ Hh Hin). auto.
    + intros x Hx. rewrite Hx in Hh.
      inversion Hh as [|r hb Hrun]; subst.
      * eexists. constructor.
      * destruct (run_of_Raise_inv _ _ _ Hrun) as [c Hin]. exists c.
        rewrite !elem_of_app. auto.
    + now apply tagging_history_exit_status.
    + eapply tagging_history_NoDup; eauto.
    + apply with_sync_playwright_stops.
  - destruct (emits_verify_context_tracker E w) as (h & Hc & Hh).
    exists h. split_and!; try assumption.
    + intros c x Hin. rewrite (run_of_failure _ _ _ _ _ Hh Hin). auto.
    + intros x Hx. rewrite Hx in Hh. eapply run_of_Raise_inv; eauto.
    + now apply run_of_exit_status.
    + eapply run_of_NoDup; eauto. apply tracker_steps_NoDup.
    + apply with_sync_playwright_stops.
Qed.

(** C9. The tagging script finds the chat input by the test identifier
    "multimodal-input" and fills it with "@".  When no element carries the
    identifier, or the one that does is not visible, enabled and editable, the
    fill raises the element-resolution error, the script ends there (the close
    apart) and the status is non-zero.  When one element, visible, enabled and
    editable, carries it, the fill is the step right after the navigation and
    ends well before any other step; the value of that element becomes "@"
    whatever it was, and the page the later steps see is the application's
    reaction to that input. *)
Theorem chat_input_is_filled E w d0 :
  can_launch E true = true ->
  serve E "http://localhost:3000" = Some d0 ->
  let out := verify_document_tagging E w in
  let chat_input := ByTestId "multimodal-input" in
  let failed :=
    fst out = Raise (ElementResolutionError chat_input)
    /\ exit_status (fst out) = 1%Z
    /\ calls (snd out)
       = calls w ++ [ (Launch true, None); (NewPage, None);
                      (Goto "http://localhost:3000", None);
                      (Fill chat_input "@", Some (ElementResolutionError chat_input));
                      (Close, None) ] in
  (resolve E chat_input d0 = [] -> failed)
  /\ (forall i e,
         resolve E chat_input d0 = [(i, e)] ->
         actionable Filling e = false ->
         failed)
  /\ (forall i e,
         resolve E chat_input d0 = [(i, e)] ->
         actionable Filling e = true ->
         (exists h,
             calls (snd out)
             = calls w ++ [ (Launch true, None); (NewPage, None);
                            (Goto "http://localhost:3000", None);
                            (Fill chat_input "@", None) ] ++ h)
         /\ el_value <$> (set_value i "@" d0 !! i) = Some "@"
         /\ (forall page w1 b,
                pages w1 !! page = Some (b, d0) ->
                let filled :=
                  locator_fill E (get_by_test_id page "multimodal-input") "@" w1 in
                fst filled = Ok tt
                /\ pages (snd filled) !! page = Some (b, page_after_fill E i d0))).
Proof.
  intros Hl Hs. cbv zeta.
  destruct (verify_document_tagging_launched E w Hl) as (Hr & Hc & _).
  unfold run_verification in *.
  assert (action_target E Filling (ByTestId "multimodal-input") d0
          = Raise (ElementResolutionError (ByTestId "multimodal-input")) ->
          fst (verify_document_tagging E w)
          = Raise (ElementResolutionError (ByTestId "multimodal-input"))
          /\ exit_status (fst (verify_document_tagging E w)) = 1%Z
          /\ calls (snd (verify_document_tagging E w))
             = calls w ++ [ (Launch true, None); (NewPage, None);
                            (Goto "http://localhost:3000", None);
                            (Fill (ByTestId "multimodal-input") "@",
                             Some (ElementResolutionError
                                     (ByTestId "multimodal-input")));
                            (Close, None) ]) as Hfail.
  { intros Ht.
    destruct (path_fill_raises E "Monet" _ _ _ _ (session_page_open true w)
                d0 Hs _ Ht) as (Pr & Pc & _).
    rewrite Hr, Hc, Pr, Pc. cbn [session_world calls]. flatten_history. auto. }
  split_and!.
  - intros Hres. apply Hfail. unfold action_target. now rewrite Hres.
  - intros i e Hres Hno. apply Hfail.
    eapply action_target_not_actionable; eauto.
  - intros i e Hres Hok.
    pose proof (action_target_unique _ _ _ _ _ _ Hres Hok) as Ht. split_and!.
    + destruct (path_filled E "Monet" _ _ _ _ (session_page_open true w)
                  d0 Hs i Ht) as (h & Pc).
      exists (h ++ [(Close, None)]). rewrite Hc, Pc. cbn [session_world calls].
      flatten_history. reflexivity.
    + erewrite set_value_lookup; [reflexivity|].
      apply (resolve_lookup E (ByTestId "multimodal-input")).
      rewrite Hres. constructor.
    + intros page w1 b Hp.
      destruct (locator_fill_sets_value E page "@" w1 b d0 i e Hp Hres Hok)
        as (Fr & Fp & _).
      split; assumption.
Qed.

Lemma chat_input_is_filled_witness :
  fst (verify_document_tagging chat_app_no_input fresh_world)
  = Raise (ElementResolutionError (ByTestId "multimodal-input"))
  /\ fst (verify_document_tagging chat_app_read_only fresh_world)
     = Raise (ElementResolutionError (ByTestId "multimodal-input"))
  /\ el_value <$> (set_value 0 "@" [stub_input "old text"] !! 0) = Some "@"
  /\ exists h,
       calls (snd (verify_document_tagging chat_app fresh_world))
       = [ (Launch true, None); (NewPage, None);
           (Goto "http://localhost:3000", None);
           (Fill (ByTestId "multimodal-input") "@", None) ] ++ h.
Proof.
  cbv zeta. split_and!.
  - exact (proj1 (proj1 (chat_input_is_filled chat_app_no_input fresh_world []
                           eq_refl eq_refl) eq_refl)).
  - exact (proj1 (proj1 (proj2 (chat_input_is_filled chat_app_read_only
                                  fresh_world [read_only_input]
                                  eq_refl eq_refl))
                        0 read_only_input eq_refl eq_refl)).
  - reflexivity.
  - exact (proj1 (proj2 (proj2 (chat_input_is_filled chat_app fresh_world
                                  [stub_input ""] eq_refl eq_refl))
                        0 (stub_input "") eq_refl eq_refl)).
Defined.

(** C10. [run_verification] is its body at the document name "Monet", and for
    whatever name [d] the variable [document_to_select] holds, every click of
    a run is on the element with the text [d] and every comparison of the
    input's value is with " @" followed by [d] and a space.  On a page where
    the entry with the text [d] is clicked, the run passes the comparison when
    the input holds " @d " and raises the assertion error when it holds
    anything else. *)
Theorem click_and_assertion_name_one_document E d page w :
  let rw := run_verification_with E d page w in
  (forall p u, run_verification E p u = run_verification_with E "Monet" p u)
  /\ (exists h,
         calls (snd rw) = calls w ++ h
         /\ run_of (tagging_steps d) (fst rw) h
         /\ (forall sel o, (Click sel, o) ∈ h -> sel = ByText d)
         /\ (forall sel x o, (ExpectValue sel x, o) ∈ h ->
                             sel = ByTestId "multimodal-input"
                             /\ x = " @" +:+ d +:+ " "))
  /\ (forall b dp d0 i k e j m inp,
         pages w !! page = Some (b, dp) ->
         serve E "http://localhost:3000" = Some d0 ->
         action_target E Filling (ByTestId "multimodal-input") d0 = Ok i ->
         resolve E (ByTestId "document-tagging") (page_after_fill E i d0) = [(k, e)] ->
         el_visible e = true ->
         action_target E Clicking (ByText d) (page_after_fill E i d0) = Ok j ->
         resolve E (ByTestId "multimodal-input") (page_after_click E i j d0)
         = [(m, inp)] ->
         (el_value inp = " @" +:+ d +:+ " " ->
          "Input value is correct." ∈ stderr (snd rw))
         /\ (el_value inp <> " @" +:+ d +:+ " " ->
             fst rw = Raise (ValueAssertionError (ByTestId "multimodal-input")
                                                 (" @" +:+ d +:+ " ")
                                                 (Some (el_value inp))))).
Proof.
  cbv zeta. split_and!.
  - reflexivity.
  - destruct (emits_run_verification_with E d page w) as (h & Hc & Hh).
    exists h. split_and!; try assumption.
    + intros sel o Hin. eapply tagging_steps_click, run_of_elem; eauto.
    + intros sel x o Hin. eapply tagging_steps_expected, run_of_elem; eauto.
  - intros b dp d0 i k e j m inp Hp Hs Hf Hshown Hvis Hclick Hinput. split.
    + intros Heq.
      now destruct (path_value_match E d _ _ _ _ Hp d0 Hs i Hf k e Hshown Hvis
                      j Hclick m inp Hinput Heq) as (_ & ? & _).
    + intros Hne.
      now destruct (path_value_mismatch E d _ _ _ _ Hp d0 Hs i Hf k e Hshown
                      Hvis j Hclick m inp Hinput Hne) as (? & _).
Qed.

Lemma click_and_assertion_name_one_document_witness :
  let picasso := stub_env "Picasso" "@Picasso" in
  fst (run_verification_with picasso "Picasso" (session_page fresh_world)
                             (session_world true fresh_world))
  = Raise (ValueAssertionError (ByTestId "multimodal-input") " @Picasso "
                               (Some "@Picasso")).
Proof.
  refine (proj2 (proj2 (proj2 (click_and_assertion_name_one_document
                                 (stub_env "Picasso" "@Picasso") "Picasso"
                                 (session_page fresh_world)
                                 (session_world true fresh_world)))
                       _ _ [stub_input ""] 0 1
                       stub_container 2 0
                       (stub_input "@Picasso")
                       (session_page_open true fresh_world)
                       eq_refl eq_refl eq_refl eq_refl eq_refl eq_refl) _).
  discriminate.
Defined.

(** * Further properties of the scripts *)

(** ** The lines of [run_verification] *)

Lemma lines_of_app l1 l2 : lines_of (l1 ++ l2) = lines_of l1 ++ lines_of l2.
Proof. induction l1 as [|[s|c] l1 IH]; simpl; congruence. Qed.

Lemma commands_of_app l1 l2 :
  commands_of (l1 ++ l2) = commands_of l1 ++ commands_of l2.
Proof. induction l1 as [|[s|c] l1 IH]; simpl; congruence. Qed.

Lemma runs_through_bind {A B} (m : M A) (k : A -> M B) L1 L2 L w :
  (forall u, runs_through L1 u (m u)) ->
  (forall a u, runs_through L2 u (k a u)) ->
  L = L1 ++ L2 ->
  runs_through L w (bind m k w).
Proof.
  intros Hm Hk ->. specialize (Hm w). unfold bind, runs_through in *.
  destruct (m w) as [[a|x] w1]; cbn [fst snd] in *.
  - destruct Hm as [Hs Hc]. specialize (Hk a w1).
    destruct (k a w1) as [[b|x] w2]; cbn [fst snd] in *.
    + destruct Hk as [Hs2 Hc2].
      rewrite Hs2, Hc2, Hs, Hc, lines_of_app, commands_of_app, completed_app.
      now rewrite <- !app_assoc.
    + destruct Hk as (n & c & Hn & Hs2 & Hc2).
      exists (length L1 + n), c. split_and!.
      * rewrite lookup_app_r by lia.
        now replace (length L1 + n - length L1) with n by lia.
      * rewrite take_app_add', lines_of_app, Hs2, Hs by reflexivity.
        now rewrite <- app_assoc.
      * rewrite take_app_add', commands_of_app, completed_app, Hc2, Hc
          by reflexivity.
        now rewrite <- !app_assoc.
  - destruct Hm as (n & c & Hn & Hs & Hc).
    assert (n < length L1) as Hlt by (eapply lookup_lt_Some; eauto).
    exists n, c. rewrite lookup_app_l, take_app_le by lia. auto.
Qed.

Lemma runs_through_print s w : runs_through [Say s] w (print s w).
Proof. split; cbn; [reflexivity | now rewrite app_nil_r]. Qed.

Ltac one_command :=
  intros w; unfold runs_through; exec_unfold;
  repeat first [progress reduce_world | split_step];
  first [ split; cbn; [now rewrite app_nil_r | reflexivity]
        | eexists 0, _; split_and!; cbn; [reflexivity | now rewrite app_nil_r | reflexivity] ].

Section Lines.
Context (E : env).

Lemma runs_through_page_goto page url w :
  runs_through [Do (Goto url)] w (page_goto E page url w).
Proof. revert w. one_command. Qed.

Lemma runs_through_locator_fill l value w :
  runs_through [Do (Fill (loc_selector l) value)] w (locator_fill E l value w).
Proof. revert w. one_command. Qed.

Lemma runs_through_locator_click l w :
  runs_through [Do (Click (loc_selector l))] w (locator_click E l w).
Proof. revert w. one_command. Qed.

Lemma runs_through_expect_to_be_visible l w :
  runs_through [Do (ExpectVisible (loc_selector l))] w (expect_to_be_visible E l w).
Proof. revert w. one_command. Qed.

Lemma runs_through_expect_to_have_value l expected w :
  runs_through [Do (ExpectValue (loc_selector l) expected)] w
               (expect_to_have_value E l expected w).
Proof. revert w. one_command. Qed.

Lemma runs_through_page_screenshot page path full_page w :
  runs_through [Do (Screenshot path (default false full_page))] w
               (page_screenshot E page path full_page w).
Proof. revert w. one_command. Qed.

Lemma runs_through_run_verification_with d page w :
  runs_through (run_verification_lines d) w (run_verification_with E d page w).
Proof.
  unfold run_verification_with, run_verification_lines.
  repeat lazymatch goal with
  | |- runs_through _ _ (bind (print _) _ _) =>
      eapply runs_through_bind;
      [ intros ?; apply runs_through_print | intros _ ? | reflexivity ]
  | |- runs_through _ _ (bind _ _ _) =>
      eapply runs_through_bind;
      [ intros ?;
        first [ apply runs_through_page_goto | apply runs_through_locator_fill
              | apply runs_through_locator_click
              | apply runs_through_expect_to_be_visible
              | apply runs_through_expect_to_have_value
              | apply runs_through_page_screenshot ]
      | intros _ ? | reflexivity ]
  | |- runs_through _ _ (print _ _) => apply runs_through_print
  end.
Qed.
End Lines.

Lemma run_verification_Ok_inv E page w :
  fst (run_verification E page w) = Ok tt ->
  tagging_scenario E
  /\ can_write E "jules-scratch/verification/verification.png" = true.
Proof.
  enough (match fst (run_verification E page w) with
          | Ok _ => tagging_scenario E
                    /\ can_write E "jules-scratch/verification/verification.png" = true
          | Raise _ => True
          end) as H by (intros Hok; now rewrite Hok in H).
  exec_unfold.
  repeat first [exec_step | split_step]; try exact I.
  split; [|reflexivity].
  unfold tagging_scenario, page_after_click, page_after_fill.
  do 7 eexists. split_and!; try eassumption.
  eapply bool_decide_eq_true_1. eassumption.
Qed.

(** X1. The tagging script ends with status 0 exactly when the browser
    launches, the application behaves as the script expects, and the
    screenshot can be written. *)
Theorem tagging_script_passes_iff E w :
  exit_status (fst (verify_document_tagging E w)) = 0%Z
  <-> can_launch E true = true
      /\ tagging_scenario E
      /\ can_write E "jules-scratch/verification/verification.png" = true.
Proof.
  split.
  - intros Hok. destruct (can_launch E true) eqn:Hl.
    + destruct (verify_document_tagging_launched E w Hl) as (Hr & _).
      rewrite Hr in Hok.
      destruct (fst (run_verification E (session_page w) (session_world true w)))
        as [[]|x] eqn:Hrun; [|discriminate].
      destruct (run_verification_Ok_inv E _ _ Hrun). auto.
    + destruct (verify_document_tagging_not_launched E w Hl) as (Hr & _).
      rewrite Hr in Hok. discriminate.
  - intros (Hl & (d0 & i & k & e & j & m & inp & Hs & Hf & Hshown & Hvis
                   & Hclick & Hinput & Heq) & Hw).
    destruct (verify_document_tagging_launched E w Hl) as (Hr & _).
    destruct (path_value_match E "Monet" _ _ _ _ (session_page_open true w)
                d0 Hs i Hf k e Hshown Hvis j Hclick m inp Hinput Heq)
      as (_ & _ & P).
    destruct (P Hw) as (Pr & _).
    unfold run_verification in Hr. now rewrite Hr, Pr.
Qed.

(** X2. The context-tracker script ends with status 0 exactly when the
    browser launches, the URL loads some page, whatever it shows, and the
    screenshot can be written. *)
Theorem context_tracker_passes_iff E w :
  exit_status (fst (verify_context_tracker E w)) = 0%Z
  <-> can_launch E true = true
      /\ is_Some (serve E "http://localhost:3000")
      /\ can_write E "jules-scratch/verification/context_tracker.png" = true.
Proof.
  destruct (can_launch E true) eqn:Hl;
    [destruct (serve E "http://localhost:3000") as [d0|] eqn:Hs;
     [destruct (can_write E "jules-scratch/verification/context_tracker.png") eqn:Hw|]|];
    exec; cbn; split; try discriminate; intros H; decompose [and] H;
    try discriminate; eauto.
  all: match goal with H : is_Some None |- _ => now destruct H end.
Qed.

Lemma run_verification_finished_line E d page w :
  let rw := run_verification_with E d page w in
  exists lines,
    stderr (snd rw) = stderr w ++ lines
    /\ ("Verification script finished successfully." ∈ lines <-> fst rw = Ok tt).
Proof.
  cbv zeta. pose proof (runs_through_run_verification_with E d page w) as H.
  unfold runs_through in H.
  destruct (fst (run_verification_with E d page w)) as [[]|x].
  - destruct H as [Hs _]. eexists. split; [exact Hs|].
    split; [reflexivity|]. intros _. cbn. in_list.
  - destruct H as (n & c & Hn & Hs & _). eexists. split; [exact Hs|].
    split; [|discriminate]. intros Hin. exfalso.
    do 20 (destruct n as [|n];
           [ cbn in Hn; try discriminate Hn; cbn in Hin;
             rewrite ?elem_of_cons, elem_of_nil in Hin;
             decompose [or] Hin; try discriminate; assumption | ]).
    cbn in Hn. discriminate Hn.
Qed.

(** X3. The tagging script prints "Verification script finished
    successfully." exactly in the runs that end with status 0. *)
Theorem success_line_is_truthful E w :
  let out := verify_document_tagging E w in
  exists lines,
    stderr (snd out) = stderr w ++ lines
    /\ ("Verification script finished successfully." ∈ lines
        <-> exit_status (fst out) = 0%Z).
Proof.
  cbv zeta. destruct (can_launch E true) eqn:Hl.
  - destruct (verify_document_tagging_launched E w Hl) as (Hr & _ & _ & Hse & _).
    destruct (run_verification_finished_line E "Monet" (session_page w)
                (session_world true w)) as (lines & Hs & Hiff).
    unfold run_verification in *. exists lines. rewrite Hse, Hr. split; [exact Hs|].
    rewrite Hiff.
    destruct (fst (run_verification_with E "Monet" (session_page w)
                     (session_world true w))) as [[]|x]; cbn; split;
      congruence.
  - destruct (verify_document_tagging_not_launched E w Hl) as (Hr & _ & _ & Hse).
    exists []. rewrite Hse, Hr, app_nil_r. split; [reflexivity|].
    cbn. rewrite elem_of_nil. split; [contradiction|discriminate].
Qed.


(** X4. A run of [run_verification] goes through the lines of the source in
    order, prints and commands alike: one that returns has printed every
    message and sent every command; one that raises stopped at the command
    that raised, having printed the messages before it and none after. *)
Theorem run_verification_follows_the_source E d page w :
  let rw := run_verification_with E d page w in
  let L := run_verification_lines d in
  match fst rw with
  | Ok _ =>
      stderr (snd rw) = stderr w ++ lines_of L
      /\ calls (snd rw) = calls w ++ completed (commands_of L)
  | Raise x =>
      exists n c,
        L !! n = Some (Do c)
        /\ stderr (snd rw) = stderr w ++ lines_of (take n L)
        /\ calls (snd rw)
           = calls w ++ completed (commands_of (take n L)) ++ [(c, Some x)]
  end.
Proof. exact (runs_through_run_verification_with E d page w). Qed.

(** X5. With the browser launched and no page behind the URL, both scripts
    raise the navigation error and write no file.  The tagging script has
    printed its first two messages and closes the browser; the context-tracker
    script prints nothing and does not reach its close. *)
Theorem unreachable_server_fails_navigation E w :
  can_launch E true = true ->
  serve E "http://localhost:3000" = None ->
  let tag := verify_document_tagging E w in
  let trk := verify_context_tracker E w in
  let x := NavigationError "http://localhost:3000" in
  (fst tag = Raise x
   /\ calls (snd tag)
      = calls w ++ [ (Launch true, None); (NewPage, None);
                     (Goto "http://localhost:3000", Some x); (Close, None) ]
   /\ fs (snd tag) = fs w
   /\ stderr (snd tag)
      = stderr w ++ [ "Starting verification script...";
                      "Navigating to http://localhost:3000..." ])
  /\ (fst trk = Raise x
      /\ calls (snd trk)
         = calls w ++ [ (Launch true, None); (NewPage, None);
                        (Goto "http://localhost:3000", Some x) ]
      /\ fs (snd trk) = fs w
      /\ stderr (snd trk) = stderr w).
Proof.
  intros Hl Hs. cbv zeta. split.
  - destruct (verify_document_tagging_launched E w Hl)
      as (Hr & Hc & Hfs & Hse & _).
    destruct (path_no_server E "Monet" _ _ _ _ (session_page_open true w) Hs)
      as (Pr & Pc & Pfs & Pse).
    unfold run_verification in *.
    rewrite Hr, Hc, Hfs, Hse, Pr, Pc, Pfs, Pse. cbn [session_world calls fs stderr].
    flatten_history. auto.
  - exec. flatten_history. auto.
Qed.

Lemma unreachable_server_fails_navigation_witness :
  fst (verify_document_tagging no_server fresh_world)
  = Raise (NavigationError "http://localhost:3000")
  /\ fst (verify_context_tracker no_server fresh_world)
     = Raise (NavigationError "http://localhost:3000").
Proof.
  destruct (unreachable_server_fails_navigation no_server fresh_world
              eq_refl eq_refl) as ((Htag & _) & (Htrk & _)).
  exact (conj Htag Htrk).
Defined.

(** X6. When the browser cannot be launched, either script raises the launch
    error at once: the launch is its only command, [run_verification] is not
    entered, nothing is printed and no file is written. *)
Theorem failed_launch_runs_nothing E w :
  can_launch E true = false ->
  let tag := verify_document_tagging E w in
  let trk := verify_context_tracker E w in
  (fst tag = Raise LaunchError
   /\ calls (snd tag) = calls w ++ [(Launch true, Some LaunchError)]
   /\ fs (snd tag) = fs w
   /\ stderr (snd tag) = stderr w)
  /\ (fst trk = Raise LaunchError
      /\ calls (snd trk) = calls w ++ [(Launch true, Some LaunchError)]
      /\ fs (snd trk) = fs w
      /\ stderr (snd trk) = stderr w).
Proof. intros Hl. cbv zeta. split; exec; auto. Qed.

Lemma failed_launch_runs_nothing_witness :
  fst (verify_document_tagging no_browser fresh_world) = Raise LaunchError
  /\ fst (verify_context_tracker no_browser fresh_world) = Raise LaunchError.
Proof.
  destruct (failed_launch_runs_nothing no_browser fresh_world eq_refl)
    as ((Htag & _) & (Htrk & _)).
  exact (conj Htag Htrk).
Defined.

(** X7. When the document list shows but no element has the text "Monet",
    the tagging script raises the element-resolution error at the click: the
    value of the input is not compared, no screenshot is taken, the last
    message printed is "Clicking on 'Monet'...", and the browser is closed. *)
Theorem missing_entry_stops_at_the_click E w d0 i k e :
  can_launch E true = true ->
  serve E "http://localhost:3000" = Some d0 ->
  action_target E Filling (ByTestId "multimodal-input") d0 = Ok i ->
  resolve E (ByTestId "document-tagging") (page_after_fill E i d0) = [(k, e)] ->
  el_visible e = true ->
  resolve E (ByText "Monet") (page_after_fill E i d0) = [] ->
  let out := verify_document_tagging E w in
  let x := ElementResolutionError (ByText "Monet") in
  fst out = Raise x
  /\ exit_status (fst out) = 1%Z
  /\ calls (snd out)
     = calls w ++ [ (Launch true, None); (NewPage, None);
                    (Goto "http://localhost:3000", None);
                    (Fill (ByTestId "multimodal-input") "@", None);
                    (ExpectVisible (ByTestId "document-tagging"), None);
                    (Click (ByText "Monet"), Some x);
                    (Close, None) ]
  /\ fs (snd out) = fs w
  /\ last (stderr (snd out)) = Some "Clicking on 'Monet'...".
Proof.
  intros Hl Hs Hf Hshown Hvis Hres. cbv zeta.
  destruct (verify_document_tagging_launched E w Hl)
    as (Hr & Hc & Hfs & Hse & _).
  destruct (path_no_entry E "Monet" _ _ _ _ (session_page_open true w)
              d0 Hs i Hf k e Hshown Hvis Hres) as (Pr & Pc & Pfs & Pse).
  unfold run_verification in *.
  rewrite Hr, Hc, Hfs, Hse, Pr, Pc, Pfs, Pse. cbn [session_world calls fs].
  flatten_history. auto.
Qed.

Lemma missing_entry_stops_at_the_click_witness :
  fst (verify_document_tagging (stub_env "Picasso" " @Picasso ") fresh_world)
  = Raise (ElementResolutionError (ByText "Monet")).
Proof.
  exact (proj1 (missing_entry_stops_at_the_click
                  (stub_env "Picasso" " @Picasso ") fresh_world
                  [stub_input ""] 0 1
                  stub_container
                  eq_refl eq_refl eq_refl eq_refl eq_refl eq_refl)).
Defined.
